(** * TypeScriptToCairoConverter: a shallow embedding of
      [templates/logic/src/converter.ts]

    The converter walks a TypeScript syntax tree, collects one contract
    model (name, storage fields, functions with a synthesized instruction
    list) and renders it as Cairo text.  The parser is an external
    collaborator: the embedding starts from the syntax tree. *)

From stdpp Require Import base list strings gmap.

Local Open Scope string_scope.
Local Open Scope list_scope.

(** ** Syntax trees *)

(** [ts.SyntaxKind], restricted to the kinds of tokens and of nodes that
    have no constructor of their own below. *)
Module SyntaxKind.
Inductive t : Set :=
| ThisKeyword
| EqualsToken | PlusEqualsToken | MinusEqualsToken
| AsteriskEqualsToken | SlashEqualsToken
| EqualsEqualsEqualsToken | GreaterThanToken | GreaterThanEqualsToken
| LessThanToken | PlusToken | MinusToken | AsteriskToken
| NumericLiteral | StringLiteral
| NumberKeyword | StringKeyword | BooleanKeyword | BigIntKeyword
| TypeReference | ArrayType
| Block | ExpressionStatement | IfStatement | VariableStatement
| CallExpression | ArrowFunction | ClassExpression
| HeritageClause | TypeParameter
| Unknown.

#[global] Instance eq_dec : EqDecision t.
Proof. solve_decision. Defined.
End SyntaxKind.

Local Unset Elimination Schemes.

(** [ts.Node].  Every node carries its source text (what [getText()]
    returns).  The node kinds the converter inspects have a constructor with
    the fields the converter reads and the sub-trees [ts.forEachChild]
    enumerates; [Token] is any leaf (keywords, punctuation, literals) and
    [OtherNode] any other interior node (blocks, statements, calls, type
    nodes, ...).  Optional punctuation tokens ([?], [!], [*], [...], [?.],
    the end-of-file token) are leaves on which no visitor of the converter
    acts and are not represented. *)
Inductive Node : Type :=
| SourceFile (srcText : string) (statements : list Node)
| ClassDeclaration (srcText : string) (modifiers : list Node)
    (name : option Node) (typeParameters heritageClauses members : list Node)
| PropertyDeclaration (srcText : string) (modifiers : list Node)
    (name : Node) (type initializer : option Node)
| MethodDeclaration (srcText : string) (modifiers : list Node)
    (name : Node) (typeParameters parameters : list Node)
    (type body : option Node)
| ParameterDeclaration (srcText : string) (modifiers : list Node)
    (name : Node) (type initializer : option Node)
| Decorator (srcText : string) (expression : Node)
| PropertyAccessExpression (srcText : string) (expression name : Node)
| BinaryExpression (srcText : string) (left operatorToken right : Node)
| ReturnStatement (srcText : string) (expression : option Node)
| Identifier (srcText : string) (text : string)
| Token (kind : SyntaxKind.t) (srcText : string)
| OtherNode (kind : SyntaxKind.t) (srcText : string) (children : list Node).

Local Set Elimination Schemes.

(** [node.getText()] *)
Definition getText (n : Node) : string :=
  match n with
  | SourceFile s _ | ClassDeclaration s _ _ _ _ _
  | PropertyDeclaration s _ _ _ _ | MethodDeclaration s _ _ _ _ _ _
  | ParameterDeclaration s _ _ _ _ | Decorator s _ | PropertyAccessExpression s _ _
  | BinaryExpression s _ _ _ | ReturnStatement s _ | Identifier s _
  | Token _ s | OtherNode _ s _ => s
  end.

Definition optNode (o : option Node) : list Node :=
  match o with Some c => [c] | None => [] end.

(** The children [ts.forEachChild] passes to its callback, in its order. *)
Definition childrenOf (n : Node) : list Node :=
  match n with
  | SourceFile _ stmts => stmts
  | ClassDeclaration _ mods name tps hcs mems =>
      mods ++ optNode name ++ tps ++ hcs ++ mems
  | PropertyDeclaration _ mods name ty init =>
      mods ++ [name] ++ optNode ty ++ optNode init
  | MethodDeclaration _ mods name tps params ty body =>
      mods ++ [name] ++ tps ++ params ++ optNode ty ++ optNode body
  | ParameterDeclaration _ mods name ty init =>
      mods ++ [name] ++ optNode ty ++ optNode init
  | Decorator _ e => [e]
  | PropertyAccessExpression _ e name => [e; name]
  | BinaryExpression _ l op r => [l; op; r]
  | ReturnStatement _ e => optNode e
  | Identifier _ _ | Token _ _ => []
  | OtherNode _ _ cs => cs
  end.

(** [ts.forEachChild(node, cb)] for a callback that returns nothing (all
    the converter's callbacks do, so the iteration never stops early); the
    callback's effect on the enclosing variables is the state [S]. *)
Definition forEachChild {S : Type} (n : Node) (cb : Node → S → S) (s : S) : S :=
  foldl (λ s c, cb c s) s (childrenOf n).

(** The shape shared by the converter's recursive visitors:
    [const visitor = node => { act(node); if (descend) ts.forEachChild(node, visitor); }] *)
Section Visitor.
Context {S : Type} (act : Node → S → S) (descend : S → bool).

Fixpoint visit (n : Node) (s : S) {struct n} : S :=
  let s1 := act n s in
  if descend s1 then
    let each := fix each (l : list Node) (s : S) {struct l} : S :=
      match l with [] => s | c :: r => each r (visit c s) end in
    let opt := λ (o : option Node) (s : S),
      match o with Some c => visit c s | None => s end in
    match n with
    | SourceFile _ stmts => each stmts s1
    | ClassDeclaration _ mods name tps hcs mems =>
        each mems (each hcs (each tps (opt name (each mods s1))))
    | PropertyDeclaration _ mods name ty init =>
        opt init (opt ty (visit name (each mods s1)))
    | MethodDeclaration _ mods name tps params ty body =>
        opt body (opt ty (each params (each tps (visit name (each mods s1)))))
    | ParameterDeclaration _ mods name ty init =>
        opt init (opt ty (visit name (each mods s1)))
    | Decorator _ e => visit e s1
    | PropertyAccessExpression _ e name => visit name (visit e s1)
    | BinaryExpression _ l op r => visit r (visit op (visit l s1))
    | ReturnStatement _ e => opt e s1
    | Identifier _ _ | Token _ _ => s1
    | OtherNode _ _ cs => each cs s1
    end
  else s1.
End Visitor.

(** ** Node-kind predicates and field access *)

Definition isClassDeclaration (n : Node) : bool :=
  match n with ClassDeclaration _ _ _ _ _ _ => true | _ => false end.
Definition isPropertyDeclaration (n : Node) : bool :=
  match n with PropertyDeclaration _ _ _ _ _ => true | _ => false end.
Definition isMethodDeclaration (n : Node) : bool :=
  match n with MethodDeclaration _ _ _ _ _ _ _ => true | _ => false end.
Definition isDecorator (n : Node) : bool :=
  match n with Decorator _ _ => true | _ => false end.
Definition isIdentifier (n : Node) : bool :=
  match n with Identifier _ _ => true | _ => false end.
Definition isPropertyAccessExpression (n : Node) : bool :=
  match n with PropertyAccessExpression _ _ _ => true | _ => false end.
Definition isBinaryExpression (n : Node) : bool :=
  match n with BinaryExpression _ _ _ _ => true | _ => false end.
Definition isReturnStatement (n : Node) : bool :=
  match n with ReturnStatement _ _ => true | _ => false end.

(** [node.kind === k] for a kind [k] of [SyntaxKind.t]; the nodes with a
    constructor of their own have none of these kinds. *)
Definition hasKind (n : Node) (k : SyntaxKind.t) : bool :=
  match n with
  | Token k' _ | OtherNode k' _ _ => bool_decide (k' = k)
  | _ => false
  end.

(** [node.modifiers], [node.name], [node.type], [node.body],
    [node.parameters], [node.members], [identifier.text] *)
Definition node_modifiers (n : Node) : list Node :=
  match n with
  | ClassDeclaration _ mods _ _ _ _ | PropertyDeclaration _ mods _ _ _
  | MethodDeclaration _ mods _ _ _ _ _ | ParameterDeclaration _ mods _ _ _ => mods
  | _ => []
  end.
Definition node_name (n : Node) : option Node :=
  match n with
  | ClassDeclaration _ _ name _ _ _ => name
  | PropertyDeclaration _ _ name _ _ | MethodDeclaration _ _ name _ _ _ _
  | ParameterDeclaration _ _ name _ _ | PropertyAccessExpression _ _ name => Some name
  | _ => None
  end.
Definition node_type (n : Node) : option Node :=
  match n with
  | PropertyDeclaration _ _ _ ty _ | MethodDeclaration _ _ _ _ _ ty _
  | ParameterDeclaration _ _ _ ty _ => ty
  | _ => None
  end.
Definition node_body (n : Node) : option Node :=
  match n with MethodDeclaration _ _ _ _ _ _ body => body | _ => None end.
Definition node_parameters (n : Node) : list Node :=
  match n with MethodDeclaration _ _ _ _ params _ _ => params | _ => [] end.
Definition node_members (n : Node) : list Node :=
  match n with ClassDeclaration _ _ _ _ _ mems => mems | _ => [] end.
Definition node_text (n : Node) : string :=
  match n with Identifier _ t => t | _ => "" end.

(** ** JavaScript values the converter relies on *)

(** The line feed of ['\n']. *)
Definition LF : string := String (Ascii.ascii_of_nat 10) EmptyString.

(** [a || d] for a string or [undefined] on the left: the empty string and
    [undefined] are falsy. *)
Definition js_or (a : option string) (d : string) : string :=
  match a with
  | Some s => if decide (s = "") then d else s
  | None => d
  end.

(** [`${v}`] for a string or [undefined]. *)
Definition js_template (v : option string) : string :=
  match v with Some s => s | None => "undefined" end.

(** [array.join(sep)] *)
Fixpoint join (sep : string) (l : list string) : string :=
  match l with
  | [] => ""
  | [x] => x
  | x :: r => x +:+ sep +:+ join sep r
  end.

(** [[...new Set(array)]]: a [Set] keeps its elements in insertion order
    and ignores the insertion of an element it holds. *)
Definition Set_add (s : list string) (x : string) : list string :=
  if decide (x ∈ s) then s else s ++ [x].
Definition new_Set (l : list string) : list string := foldl Set_add [] l.

(** ** The contract model *)

Module CairoParameter.
Record t : Set := mk { name : string; type : string }.
End CairoParameter.

Module CairoStorage.
Record t : Set := mk { name : string; type : string }.
End CairoStorage.

Inductive Visibility : Set := external | internal.

Module CairoFunction.
Record t : Set := mk {
  name : string;
  parameters : list CairoParameter.t;
  returnType : string;
  visibility : Visibility;
  body : list string;
  isView : bool
}.
End CairoFunction.

Module CairoContract.
Record t : Set := mk {
  name : string;
  storage : list CairoStorage.t;
  functions : list CairoFunction.t
}.
End CairoContract.

(** The entries [extractStateModifications] collects; [type] has the single
    value ['assignment']. *)
Inductive ModificationType : Set := assignment.

Module Modification.
Record t : Set := mk {
  type : ModificationType;
  variable : string;
  expression : string
}.
End Modification.

(** ** The converter *)

(** The constructor's [this.contract] and [this.typeMap]. *)
Definition initial_contract : CairoContract.t :=
  CairoContract.mk "" [] [].

Definition typeMap : gmap string string :=
  list_to_map
    [("number", "felt252"); ("string", "felt252");
     ("boolean", "bool"); ("bigint", "u256")].

Definition convertType (typeNode : Node) : string :=
  let typeText := getText typeNode in
  js_or (typeMap !! typeText) "felt252".

Definition getDecorators (node : Node) : list Node :=
  List.filter isDecorator (node_modifiers node).

Definition hasViewDecorator (node : Node) : bool :=
  match getDecorators node with
  | [] => false
  | decorators =>
      existsb (λ decorator,
        match decorator with
        | Decorator _ expr =>
            isIdentifier expr && bool_decide (node_text expr = "view")
        | _ => false
        end) decorators
  end.

Definition processParameters (parameters : list Node) : list CairoParameter.t :=
  map (λ param,
    CairoParameter.mk
      (from_option getText "" (node_name param))
      (match node_type param with
       | Some ty => convertType ty
       | None => "felt252"
       end)) parameters.

Definition findStateVariableAccess_visitor (node : Node) (stateVars : list string)
  : list string :=
  match node with
  | PropertyAccessExpression _ e name =>
      if hasKind e SyntaxKind.ThisKeyword
      then stateVars ++ [getText name]
      else stateVars
  | _ => stateVars
  end.

Definition findStateVariableAccess (node : Node) : list string :=
  let stateVars := visit findStateVariableAccess_visitor (λ _, true) node [] in
  new_Set stateVars.

Definition extractStateModifications_visitor (node : Node)
  (modifications : list Modification.t) : list Modification.t :=
  match node with
  | BinaryExpression _ (PropertyAccessExpression _ e name) operatorToken right_ =>
      if hasKind e SyntaxKind.ThisKeyword then
        let variable := getText name in
        let expression :=
          if hasKind operatorToken SyntaxKind.PlusEqualsToken then
            let amount := getText right_ in
            "self." +:+ variable +:+ ".read() + " +:+ amount
          else if hasKind operatorToken SyntaxKind.MinusEqualsToken then
            let amount := getText right_ in
            "self." +:+ variable +:+ ".read() - " +:+ amount
          else getText right_ in
        modifications ++ [Modification.mk assignment variable expression]
      else modifications
  | _ => modifications
  end.

Definition extractStateModifications (node : Node) : list Modification.t :=
  visit extractStateModifications_visitor (λ _, true) node [].

Definition hasReturnStatement_visitor (node : Node) (hasReturn : bool) : bool :=
  if isReturnStatement node then true else hasReturn.

Definition hasReturnStatement (node : Node) : bool :=
  visit hasReturnStatement_visitor negb node false.

Definition analyzeFunctionBody (node : Node) (isView : bool) : list string :=
  match node_body node with
  | None => []
  | Some body_ =>
      let stateVars := findStateVariableAccess body_ in
      if isView then
        ["self." +:+ js_template (stateVars !! 0%nat) +:+ ".read()"]
      else
        let modifications := extractStateModifications body_ in
        let body :=
          foldl (λ body mod_,
            match Modification.type mod_ with
            | assignment =>
                body ++ ["self." +:+ Modification.variable mod_ +:+ ".write("
                         +:+ Modification.expression mod_ +:+ ");"]
            end) [] modifications in
        if hasReturnStatement body_
        then body ++ ["self." +:+ js_template (stateVars !! 0%nat) +:+ ".read()"]
        else body
  end.

Definition processMember (node : Node) (contract : CairoContract.t)
  : CairoContract.t :=
  match node_name node with
  | None => contract
  | Some name =>
      let methodName := getText name in
      let parameters := processParameters (node_parameters node) in
      let returnType :=
        match node_type node with
        | Some ty => convertType ty
        | None => "felt252"
        end in
      let isView := hasViewDecorator node in
      let body := analyzeFunctionBody node isView in
      let cairoFunction :=
        CairoFunction.mk methodName parameters returnType external body isView in
      CairoContract.mk (CairoContract.name contract)
        (CairoContract.storage contract)
        (CairoContract.functions contract ++ [cairoFunction])
  end.

Definition processClass_property (member : Node) (contract : CairoContract.t)
  : CairoContract.t :=
  match member with
  | PropertyDeclaration _ _ name ty _ =>
      let name := getText name in
      let type :=
        match ty with
        | Some ty => convertType ty
        | None => "felt252"
        end in
      CairoContract.mk (CairoContract.name contract)
        (CairoContract.storage contract ++ [CairoStorage.mk name type])
        (CairoContract.functions contract)
  | _ => contract
  end.

Definition processClass_method (member : Node) (contract : CairoContract.t)
  : CairoContract.t :=
  if isMethodDeclaration member then processMember member contract else contract.

Definition processClass (node : Node) (contract : CairoContract.t)
  : CairoContract.t :=
  let contract := foldl (λ c member, processClass_property member c)
                    contract (node_members node) in
  foldl (λ c member, processClass_method member c) contract (node_members node).

Definition processNode_visitor (node : Node) (contract : CairoContract.t)
  : CairoContract.t :=
  if isClassDeclaration node then
    let contract :=
      CairoContract.mk
        (js_or (node_text <$> node_name node) "Contract")
        (CairoContract.storage contract)
        (CairoContract.functions contract) in
    processClass node contract
  else contract.

Definition processNode (node : Node) (contract : CairoContract.t)
  : CairoContract.t :=
  visit processNode_visitor (λ _, true) node contract.

(** [strings.filter(Boolean)]: the empty string is the falsy one. *)
Definition filter_Boolean (l : list string) : list string :=
  List.filter (λ s, negb (bool_decide (s = ""))) l.

Definition generateStorageVariables (contract : CairoContract.t) : string :=
  join ("," +:+ LF)
    (map (λ storage,
       "        " +:+ CairoStorage.name storage +:+ ": "
       +:+ CairoStorage.type storage)
     (CairoContract.storage contract)).

Definition renderParams (parameters : list CairoParameter.t) : string :=
  join ", "
    (map (λ p, CairoParameter.name p +:+ ": " +:+ CairoParameter.type p)
       parameters).

Definition generateInterfaceFunction (func : CairoFunction.t) : string :=
  let params := renderParams (CairoFunction.parameters func) in
  let selfParam :=
    if CairoFunction.isView func
    then "self: @TContractState"
    else "ref self: TContractState" in
  let allParams := join ", " (filter_Boolean [selfParam; params]) in
  "    fn " +:+ CairoFunction.name func +:+ "(" +:+ allParams +:+ ") -> "
  +:+ CairoFunction.returnType func +:+ ";".

Definition generateInterfaceFunctions (contract : CairoContract.t) : string :=
  join LF (map generateInterfaceFunction (CairoContract.functions contract)).

Definition generateImplementationFunction (func : CairoFunction.t) : string :=
  let params := renderParams (CairoFunction.parameters func) in
  let selfParam :=
    if CairoFunction.isView func
    then "self: @ContractState"
    else "ref self: ContractState" in
  let allParams := join ", " (filter_Boolean [selfParam; params]) in
  join LF
    (["        fn " +:+ CairoFunction.name func +:+ "(" +:+ allParams
      +:+ ") -> " +:+ CairoFunction.returnType func +:+ " {"]
     ++ map (λ line, "            " +:+ line) (CairoFunction.body func)
     ++ ["        }"]).

Definition generateImplementationFunctions (contract : CairoContract.t) : string :=
  join (LF +:+ LF)
    (map generateImplementationFunction (CairoContract.functions contract)).

Definition generateCairoCode (contract : CairoContract.t) : string :=
  let name := CairoContract.name contract in
  let code :=
    [ "#[starknet::interface]";
      "pub trait I" +:+ name +:+ "<TContractState> {";
      generateInterfaceFunctions contract;
      "}";
      "";
      "#[starknet::contract]";
      "mod " +:+ name +:+ " {";
      "    use core::starknet::storage::{StoragePointerReadAccess, StoragePointerWriteAccess};";
      "";
      "    #[storage]";
      "    struct Storage {";
      generateStorageVariables contract;
      "    }";
      "";
      "    #[abi(embed_v0)]";
      "    impl " +:+ name +:+ "Impl of super::I" +:+ name +:+ "<ContractState> {";
      generateImplementationFunctions contract;
      "    }";
      "}" ] in
  join LF code.

(** [convert()] on a converter freshly constructed for [sourceFile]. *)
Definition convert (sourceFile : Node) : string :=
  generateCairoCode (processNode sourceFile initial_contract).

(** ** Reading the tree in document order *)

(** All nodes of a tree, parents before children, children in
    [forEachChild] order. *)
Definition preorder (n : Node) : list Node :=
  visit (λ n acc, acc ++ [n]) (λ _, true) n [].

(** The member name of [this.name], for a member access on the instance
    reference. *)
Definition thisAccess (n : Node) : option string :=
  match n with
  | PropertyAccessExpression _ e name =>
      if hasKind e SyntaxKind.ThisKeyword then Some (getText name) else None
  | _ => None
  end.

(** The class declarations of a tree, in document order. *)
Definition classDeclarations (n : Node) : list Node :=
  List.filter isClassDeclaration (preorder n).

(** The property members and the method members of a class, in declaration
    order. *)
Definition declaredProperties (c : Node) : list Node :=
  List.filter isPropertyDeclaration (node_members c).
Definition declaredMethods (c : Node) : list Node :=
  List.filter isMethodDeclaration (node_members c).

(** The storage field of one property declaration and the function model
    of one method declaration. *)
Definition storageOfProperty (member : Node) : CairoStorage.t :=
  CairoStorage.mk
    (from_option getText "" (node_name member))
    (match node_type member with
     | Some ty => convertType ty
     | None => "felt252"
     end).

Definition functionOfMethod (member : Node) : CairoFunction.t :=
  let isView := hasViewDecorator member in
  CairoFunction.mk
    (from_option getText "" (node_name member))
    (processParameters (node_parameters member))
    (match node_type member with
     | Some ty => convertType ty
     | None => "felt252"
     end)
    external (analyzeFunctionBody member isView) isView.

Definition classStorage (c : Node) : list CairoStorage.t :=
  map storageOfProperty (declaredProperties c).
Definition classFunctions (c : Node) : list CairoFunction.t :=
  map functionOfMethod (declaredMethods c).

(** The name a class declaration gives the contract. *)
Definition classContractName (c : Node) : string :=
  js_or (node_text <$> node_name c) "Contract".

(** The entry [extractStateModifications] pushes at one node, if any. *)
Definition modificationOf (node : Node) : option Modification.t :=
  match extractStateModifications_visitor node [] with
  | [] => None
  | m :: _ => Some m
  end.

(** The instructions of the synthesized list. *)
Definition writeInstruction (variable expression : string) : string :=
  "self." +:+ variable +:+ ".write(" +:+ expression +:+ ");".
Definition readInstruction (variable : string) : string :=
  "self." +:+ variable +:+ ".read()".

(** The nodes of a method's body, in document order; none without a body. *)
Definition bodyNodes (method : Node) : list Node :=
  match node_body method with Some b => preorder b | None => [] end.

(** ** The specification's reading of the Body Analyzer *)

(** Following the specification's words: a binary expression whose left
    operand is a member access on the instance reference is a mutation when
    its operator is plain assignment, add-assign or subtract-assign, and
    no mutation otherwise.  The result is the field and the expression to
    write. *)
Definition spec_mutation (n : Node) : option (string * string) :=
  match n with
  | BinaryExpression _ lhs op rhs =>
      match thisAccess lhs with
      | Some field =>
          if hasKind op SyntaxKind.EqualsToken then
            Some (field, getText rhs)
          else if hasKind op SyntaxKind.PlusEqualsToken then
            Some (field, readInstruction field +:+ " + " +:+ getText rhs)
          else if hasKind op SyntaxKind.MinusEqualsToken then
            Some (field, readInstruction field +:+ " - " +:+ getText rhs)
          else None
      | None => None
      end
  | _ => None
  end.

(** Following the specification's words: one write per mutation, in the
    order the mutations appear. *)
Definition spec_writes (nodes : list Node) : list string :=
  map (λ m, writeInstruction m.1 m.2) (omap spec_mutation nodes).

(** Following the specification's words: the first distinct field accessed
    through the instance reference, when there is one. *)
Definition spec_firstAccess (nodes : list Node) : option string :=
  head (omap thisAccess nodes).

(** Following the specification's words: the body holds a return
    statement somewhere. *)
Definition spec_hasReturn (nodes : list Node) : bool :=
  existsb isReturnStatement nodes.

(** Every binary expression on an instance field uses one of the three
    operators the specification recognizes. *)
Definition recognizedOperator (n : Node) : bool :=
  match n with
  | BinaryExpression _ lhs op _ =>
      match thisAccess lhs with
      | Some _ =>
          hasKind op SyntaxKind.EqualsToken
          || hasKind op SyntaxKind.PlusEqualsToken
          || hasKind op SyntaxKind.MinusEqualsToken
      | None => true
      end
  | _ => true
  end.

(** Following the specification's words: the model is built from the first
    class declaration in document order alone. *)
Definition spec_firstClassModel (sourceFile : Node) : CairoContract.t :=
  match classDeclarations sourceFile with
  | [] => initial_contract
  | c :: _ =>
      CairoContract.mk (classContractName c) (classStorage c) (classFunctions c)
  end.

(** Following the specification's words: the instruction list of a method
    that is not a view is one write per mutation, in order, followed by
    one read of the first distinct accessed field if and only if the body
    holds a return statement. *)
Definition spec_mutatingInstructions (nodes : list Node)
  (instructions : list string) : Prop :=
  ∃ trailing,
    instructions = spec_writes nodes ++ trailing
    ∧ if spec_hasReturn nodes
      then ∃ field, spec_firstAccess nodes = Some field
                    ∧ trailing = [readInstruction field]
      else trailing = [].

(** Following the specification's words: the instruction list of a view
    method is exactly one read, of the first distinct accessed field. *)
Definition spec_viewInstructions (nodes : list Node)
  (instructions : list string) : Prop :=
  ∃ field, spec_firstAccess nodes = Some field
           ∧ instructions = [readInstruction field].

(** ** Sample programs *)

Module Samples.
Definition this_ : Node := Token SyntaxKind.ThisKeyword "this".
Definition ident (x : string) : Node := Identifier x x.
Definition thisDot (field : string) : Node :=
  PropertyAccessExpression ("this." +:+ field) this_ (ident field).
Definition number (digits : string) : Node :=
  Token SyntaxKind.NumericLiteral digits.
Definition binary (lhs : Node) (k : SyntaxKind.t) (op : string) (rhs : Node)
  : Node :=
  BinaryExpression (getText lhs +:+ " " +:+ op +:+ " " +:+ getText rhs)
    lhs (Token k op) rhs.
Definition exprStmt (e : Node) : Node :=
  OtherNode SyntaxKind.ExpressionStatement (getText e +:+ ";") [e].
Definition returnStmt (e : Node) : Node :=
  ReturnStatement ("return " +:+ getText e +:+ ";") (Some e).
Definition block (stmts : list Node) : Node :=
  OtherNode SyntaxKind.Block
    ("{ " +:+ join " " (map getText stmts) +:+ " }") stmts.
Definition numberType : Node := Token SyntaxKind.NumberKeyword "number".
Definition booleanType : Node := Token SyntaxKind.BooleanKeyword "boolean".
Definition param (x : string) (ty : Node) : Node :=
  ParameterDeclaration (x +:+ ": " +:+ getText ty) [] (ident x) (Some ty) None.
Definition viewDecorator : Node := Decorator "@view" (ident "view").
Definition property (x : string) (ty : Node) : Node :=
  PropertyDeclaration (x +:+ ": " +:+ getText ty +:+ ";") [] (ident x)
    (Some ty) None.
Definition class (x : string) (members : list Node) : Node :=
  ClassDeclaration
    ("class " +:+ x +:+ " { " +:+ join " " (map getText members) +:+ " }")
    [] (Some (ident x)) [] [] members.

(** [deposit(amount: number) { this.balance += amount; return this.balance; }] *)
Definition depositBody : Node :=
  block [ exprStmt (binary (thisDot "balance") SyntaxKind.PlusEqualsToken "+="
                      (ident "amount"));
          returnStmt (thisDot "balance") ].
Definition depositMethod : Node :=
  MethodDeclaration ("deposit(amount: number) " +:+ getText depositBody) []
    (ident "deposit") [] [param "amount" numberType] None (Some depositBody).

(** [withdraw(amount: number) { this.balance -= amount; }] *)
Definition withdrawBody : Node :=
  block [ exprStmt (binary (thisDot "balance") SyntaxKind.MinusEqualsToken "-="
                      (ident "amount")) ].
Definition withdrawMethod : Node :=
  MethodDeclaration ("withdraw(amount: number) " +:+ getText withdrawBody) []
    (ident "withdraw") [] [param "amount" numberType] None (Some withdrawBody).

(** [scale() { this.balance *= 2; }] *)
Definition scaleBody : Node :=
  block [ exprStmt (binary (thisDot "balance") SyntaxKind.AsteriskEqualsToken
                      "*=" (number "2")) ].
Definition scaleMethod : Node :=
  MethodDeclaration ("scale() " +:+ getText scaleBody) []
    (ident "scale") [] [] None (Some scaleBody).

(** [covers(amount: number) { return this.balance >= amount; }] *)
Definition coversBody : Node :=
  block [ returnStmt (binary (thisDot "balance")
                        SyntaxKind.GreaterThanEqualsToken ">=" (ident "amount")) ].
Definition coversMethod : Node :=
  MethodDeclaration ("covers(amount: number) " +:+ getText coversBody) []
    (ident "covers") [] [param "amount" numberType] None (Some coversBody).

(** [answer() { return 42; }] *)
Definition answerBody : Node := block [ returnStmt (number "42") ].
Definition answerMethod : Node :=
  MethodDeclaration ("answer() " +:+ getText answerBody) []
    (ident "answer") [] [] None (Some answerBody).

(** [@view getBalance(): number { return this.balance; }] *)
Definition getBalanceBody : Node := block [ returnStmt (thisDot "balance") ].
Definition getBalanceMethod : Node :=
  MethodDeclaration ("@view getBalance(): number " +:+ getText getBalanceBody)
    [viewDecorator] (ident "getBalance") [] [] (Some numberType)
    (Some getBalanceBody).

(** [@view peek(): number;], a method declaration without a body *)
Definition peekMethod : Node :=
  MethodDeclaration "@view peek(): number;" [viewDecorator] (ident "peek")
    [] [] (Some numberType) None.

(** [class Wallet { balance: number; active: boolean; ... }] *)
Definition walletClass : Node :=
  class "Wallet"
    [ property "balance" numberType; getBalanceMethod;
      property "active" booleanType; depositMethod ].
Definition walletFile : Node :=
  SourceFile (getText walletClass) [walletClass].

(** [class A { a: number; } class B { b: boolean; }] *)
Definition classA : Node := class "A" [property "a" numberType].
Definition classB : Node := class "B" [property "b" booleanType].
Definition twoClassFile : Node :=
  SourceFile (getText classA +:+ " " +:+ getText classB) [classA; classB].

(** [class Outer { x: number; m() { class Inner { y: boolean; } } }] *)
Definition innerClass : Node := class "Inner" [property "y" booleanType].
Definition outerMethod : Node :=
  MethodDeclaration "m() { class Inner { y: boolean; } }" [] (ident "m")
    [] [] None (Some (block [innerClass])).
Definition outerClass : Node :=
  class "Outer" [property "x" numberType; outerMethod].
Definition nestedClassFile : Node :=
  SourceFile (getText outerClass) [outerClass].

(** [const x = 1;] *)
Definition noClassFile : Node :=
  SourceFile "const x = 1;"
    [OtherNode SyntaxKind.VariableStatement "const x = 1;"
       [ident "x"; number "1"]].
End Samples.

(** ** The remaining members of the converter class *)

Definition hasExternalDecorator (node : Node) : bool :=
  match getDecorators node with
  | [] => false
  | decorators =>
      existsb (λ decorator,
        match decorator with
        | Decorator _ expr =>
            isIdentifier expr && bool_decide (node_text expr = "external")
        | _ => false
        end) decorators
  end.

Definition checkIfModifiesState_visitor (node : Node) (modifiesState : bool)
  : bool :=
  match node with
  | BinaryExpression _ (PropertyAccessExpression _ e _) _ _ =>
      if hasKind e SyntaxKind.ThisKeyword then true else modifiesState
  | _ => modifiesState
  end.

Definition checkIfModifiesState (node : Node) : bool :=
  visit checkIfModifiesState_visitor (λ _, true) node false.

(** The converter object: its fields [sourceFile] and [contract]
    ([typeMap] is never written after the constructor).  [convert()]
    updates [contract] in place and returns the text. *)
Module Converter.
Record t : Type := mk { sourceFile : Node; contract : CairoContract.t }.
End Converter.

Definition new_Converter (sourceFile : Node) : Converter.t :=
  Converter.mk sourceFile initial_contract.

Definition convert_method (this : Converter.t) : string * Converter.t :=
  let contract :=
    processNode (Converter.sourceFile this) (Converter.contract this) in
  (generateCairoCode contract,
   Converter.mk (Converter.sourceFile this) contract).

(** ** Further readings of the tree and of the model *)

(** A list without its repetitions: every element at its first place. *)
Fixpoint firstOccurrences (l : list string) : list string :=
  match l with
  | [] => []
  | x :: r => x :: filter (λ y, y ≠ x) (firstOccurrences r)
  end.

(** The field, the operator and the right operand of a binary expression
    whose left operand is a member access on the instance reference. *)
Definition thisBinary (n : Node) : option (string * Node * Node) :=
  match n with
  | BinaryExpression _ lhs op rhs =>
      match thisAccess lhs with
      | Some field => Some (field, op, rhs)
      | None => None
      end
  | _ => None
  end.

(** The three types the Type Mapper can produce. *)
Definition targetTypes : list string := ["felt252"; "bool"; "u256"].

Module MoreSamples.
Import Samples.

(** [export default class { x: number; }] *)
Definition anonymousClass : Node :=
  ClassDeclaration "export default class { x: number; }" [] None [] []
    [property "x" numberType].
Definition anonymousFile : Node :=
  SourceFile (getText anonymousClass) [anonymousClass].

(** [@view() total() { return this.balance; }]: the decorator is a call *)
Definition viewCallDecorator : Node :=
  Decorator "@view()"
    (OtherNode SyntaxKind.CallExpression "view()" [ident "view"]).
Definition totalMethod : Node :=
  MethodDeclaration "@view() total() { return this.balance; }"
    [viewCallDecorator] (ident "total") [] [] None (Some getBalanceBody).

(** [move() { this.a = this.b; this.b = this.a; return this.b; }] *)
Definition moveBody : Node :=
  block [ exprStmt (binary (thisDot "a") SyntaxKind.EqualsToken "=" (thisDot "b"));
          exprStmt (binary (thisDot "b") SyntaxKind.EqualsToken "=" (thisDot "a"));
          returnStmt (thisDot "b") ].
Definition moveMethod : Node :=
  MethodDeclaration ("move() " +:+ getText moveBody) [] (ident "move")
    [] [] None (Some moveBody).
End MoreSamples.

(** ** The specification's reading of the emitted order *)

(** Following the specification's words: the emitted order is the
    declaration order of the source when the emitted storage fields
    (functions) are met, in the emitted order, while reading the property
    (method) declarations of the tree in document order. *)
Definition spec_inDeclarationOrder (sourceFile : Node)
  (contract : CairoContract.t) : Prop :=
  map CairoStorage.name (CairoContract.storage contract)
    `sublist_of`
    map (λ p, from_option getText "" (node_name p))
      (List.filter isPropertyDeclaration (preorder sourceFile))
  ∧ map CairoFunction.name (CairoContract.functions contract)
      `sublist_of`
      map (λ m, from_option getText "" (node_name m))
        (List.filter isMethodDeclaration (preorder sourceFile)).

Module NestedSamples.
Import Samples.

Definition method (x : string) (body : Node) : Node :=
  MethodDeclaration (x +:+ "() " +:+ getText body) [] (ident x) [] [] None
    (Some body).

(** [class Outer { x: number; m() { class Inner { y: boolean; n() { } } }
                   z: number; k() { } }] *)
Definition innerClass : Node :=
  class "Inner" [property "y" booleanType; method "n" (block [])].
Definition outerClass : Node :=
  class "Outer"
    [ property "x" numberType; method "m" (block [innerClass]);
      property "z" numberType; method "k" (block []) ].
Definition nestedOrderFile : Node :=
  SourceFile (getText outerClass) [outerClass].
End NestedSamples.


(** * Properties *)

(** ** Induction on syntax trees *)

Lemma Node_children_ind (P : Node → Prop) :
  (∀ n, Forall P (childrenOf n) → P n) → ∀ n, P n.
Proof.
  intros H. fix IH 1. intros n. apply H.
  pose (go := fix go (l : list Node) : Forall P l :=
          match l with
          | [] => Forall_nil_2 P
          | c :: r => Forall_cons_2 P c r (IH c) (go r)
          end).
  destruct n;
    repeat match goal with o : option Node |- _ => destruct o end; simpl;
    repeat first
      [ apply Forall_nil_2
      | apply Forall_cons_2; [apply IH|]
      | apply Forall_app_2
      | apply go ].
Qed.

(** ** The visitor and [forEachChild] *)

Section VisitFacts.
Context {S : Type} (act : Node → S → S) (descend : S → bool).

Lemma visit_unfold n s :
  visit act descend n s =
    let s1 := act n s in
    if descend s1 then forEachChild n (visit act descend) s1 else s1.
Proof.
  assert (each_foldl : ∀ l s0,
    (fix each (l : list Node) (s : S) {struct l} : S :=
       match l with [] => s | c :: r => each r (visit act descend c s) end) l s0
    = foldl (λ s c, visit act descend c s) s0 l).
  { induction l as [|c r IHr]; intros s0; simpl; [done | apply IHr]. }
  unfold forEachChild.
  destruct n; simpl; destruct (descend (act _ s)); try done;
    rewrite ?foldl_app, ?each_foldl; simpl;
    repeat match goal with |- context [optNode ?o] => destruct o; simpl end;
    rewrite ?foldl_app, ?each_foldl; done.
Qed.
End VisitFacts.

(** ** Document order *)

Lemma foldl_prefix {A} (g : list A → Node → list A) (cs : list Node) :
  Forall (λ c, ∀ s, g s c = s ++ g [] c) cs →
  ∀ s, foldl g s cs = s ++ (cs ≫= g []).
Proof.
  induction 1 as [|c r Hc _ IHr]; intros s.
  - simpl. by rewrite app_nil_r.
  - rewrite bind_cons. cbn [foldl]. rewrite IHr, Hc. by rewrite <- app_assoc.
Qed.

Lemma preorder_acc n : ∀ acc,
  visit (λ n acc, acc ++ [n]) (λ _, true) n acc = acc ++ preorder n.
Proof.
  induction n as [n IH] using Node_children_ind. intros acc.
  pose proof (foldl_prefix (λ s c, visit _ _ c s) _ IH) as Hfold.
  unfold preorder. rewrite !visit_unfold. unfold forEachChild. cbn beta zeta iota.
  rewrite !Hfold. by rewrite <- app_assoc.
Qed.

Lemma preorder_unfold n : preorder n = n :: (childrenOf n ≫= preorder).
Proof.
  unfold preorder at 1. rewrite visit_unfold. unfold forEachChild.
  cbn beta zeta iota.
  rewrite (foldl_prefix (λ s c, visit _ _ c s) (childrenOf n)); [done|].
  apply Forall_forall. intros c _ s. apply preorder_acc.
Qed.

Lemma elem_of_preorder_root n : n ∈ preorder n.
Proof. rewrite preorder_unfold. apply list_elem_of_here. Qed.

Lemma elem_of_preorder_child n c m :
  c ∈ childrenOf n → m ∈ preorder c → m ∈ preorder n.
Proof.
  intros Hc Hm. rewrite preorder_unfold. apply list_elem_of_further.
  apply list_elem_of_bind. eauto.
Qed.

(** A node of the tree brings its own sub-tree along. *)
Lemma elem_of_preorder_trans n : ∀ m k,
  m ∈ preorder n → k ∈ preorder m → k ∈ preorder n.
Proof.
  induction n as [n IH] using Node_children_ind. intros m k Hm Hk.
  rewrite preorder_unfold in Hm. apply elem_of_cons in Hm as [->|Hm]; [done|].
  apply list_elem_of_bind in Hm as (c & Hm & Hc).
  rewrite Forall_forall in IH.
  eapply elem_of_preorder_child; eauto.
Qed.

(** A visitor that always descends acts on every node, in document order. *)
Lemma visit_preorder {S} (act : Node → S → S) n : ∀ s,
  visit act (λ _, true) n s = foldl (λ s m, act m s) s (preorder n).
Proof.
  induction n as [n IH] using Node_children_ind. intros s.
  rewrite visit_unfold, preorder_unfold. simpl. unfold forEachChild.
  generalize (act n s). clear s.
  induction IH as [|c r Hc _ IHr]; intros s; [done|].
  rewrite bind_cons, foldl_app. cbn [foldl]. rewrite IHr. by rewrite Hc.
Qed.

(** Visitors that push at most one entry per node collect, in document
    order, the entries of the nodes that have one. *)
Lemma visit_push {A} (act : Node → list A → list A) (f : Node → option A) :
  (∀ m s, act m s = match f m with Some x => s ++ [x] | None => s end) →
  ∀ n, visit act (λ _, true) n [] = omap f (preorder n).
Proof.
  intros Hact n. rewrite visit_preorder.
  enough (∀ l s, foldl (λ s m, act m s) s l = s ++ omap f l) as H by apply H.
  induction l as [|m l IHl]; intros s; simpl.
  - by rewrite app_nil_r.
  - rewrite IHl, Hact. destruct (f m); [|done]. by rewrite <- app_assoc.
Qed.

Example preorder_depositBody :
  map getText (preorder Samples.depositBody) =
    [ "{ this.balance += amount; return this.balance; }";
      "this.balance += amount;"; "this.balance += amount";
      "this.balance"; "this"; "balance"; "+="; "amount";
      "return this.balance;"; "this.balance"; "this"; "balance" ].
Proof. vm_compute. reflexivity. Qed.

(** ** Return presence *)

Lemma hasReturnStatement_visit n : ∀ h,
  visit hasReturnStatement_visitor negb n h
  = h || existsb isReturnStatement (preorder n).
Proof.
  induction n as [n IH] using Node_children_ind. intros h.
  rewrite visit_unfold, preorder_unfold. cbn [existsb]. cbv zeta.
  assert (hasReturnStatement_visitor n h
          = if isReturnStatement n then true else h) as -> by done.
  destruct (isReturnStatement n); [by rewrite orb_true_r|].
  destruct h; [done|]. cbn [negb orb]. unfold forEachChild.
  enough (∀ h, foldl (λ s c, visit hasReturnStatement_visitor negb c s) h
                 (childrenOf n)
               = h || existsb isReturnStatement (childrenOf n ≫= preorder))
    as H by apply H.
  induction IH as [|c r Hc _ IHr]; intros h; [by rewrite orb_false_r|].
  rewrite bind_cons, existsb_app. cbn [foldl].
  by rewrite IHr, Hc, orb_assoc.
Qed.

Lemma hasReturnStatement_spec n :
  hasReturnStatement n = spec_hasReturn (preorder n).
Proof. apply hasReturnStatement_visit. Qed.

(** ** [Set] as an insertion-ordered list *)

Lemma Set_add_elem_of s x y : y ∈ Set_add s x ↔ y ∈ s ∨ y = x.
Proof.
  unfold Set_add. case_decide.
  - split; [by left | by intros [?| ->]].
  - by rewrite elem_of_app, list_elem_of_singleton.
Qed.

Lemma Set_add_NoDup s x : NoDup s → NoDup (Set_add s x).
Proof.
  intros Hs. unfold Set_add. case_decide; [done|].
  apply NoDup_app. split_and!; [done| |apply NoDup_singleton].
  intros y Hy ->%list_elem_of_singleton. done.
Qed.

Lemma Set_add_head s x :
  head (Set_add s x) = match s with [] => Some x | y :: _ => Some y end.
Proof.
  unfold Set_add. case_decide as Hx; destruct s; try done.
  by apply elem_of_nil in Hx.
Qed.

Lemma foldl_Set_add_facts l : ∀ s,
  NoDup s →
  NoDup (foldl Set_add s l)
  ∧ (∀ y, y ∈ foldl Set_add s l ↔ y ∈ s ∨ y ∈ l)
  ∧ head (foldl Set_add s l) = head (s ++ l).
Proof.
  induction l as [|x l IHl]; intros s Hs; cbn [foldl].
  - rewrite app_nil_r. split_and!; [done| |done].
    intros y. rewrite elem_of_nil. tauto.
  - destruct (IHl (Set_add s x) (Set_add_NoDup s x Hs)) as (Hnd & Hin & Hhd).
    split_and!; [done| |].
    + intros y. rewrite Hin, Set_add_elem_of, elem_of_cons. tauto.
    + rewrite Hhd. pose proof (Set_add_head s x) as Hh.
      destruct s as [|y s]; destruct (Set_add _ x); by simplify_eq/=.
Qed.

Lemma new_Set_NoDup l : NoDup (new_Set l).
Proof. apply foldl_Set_add_facts, NoDup_nil_2. Qed.

Lemma new_Set_elem_of l y : y ∈ new_Set l ↔ y ∈ l.
Proof.
  destruct (foldl_Set_add_facts l [] NoDup_nil_2) as (_ & Hin & _).
  unfold new_Set. rewrite Hin, elem_of_nil. tauto.
Qed.

Lemma new_Set_first l : new_Set l !! 0%nat = head l.
Proof.
  destruct (foldl_Set_add_facts l [] NoDup_nil_2) as (_ & _ & Hhd).
  by rewrite <- head_lookup.
Qed.

(** ** The two collecting passes *)

Lemma findStateVariableAccess_spec n :
  findStateVariableAccess n = new_Set (omap thisAccess (preorder n)).
Proof.
  unfold findStateVariableAccess. cbv zeta. f_equal.
  apply visit_push. intros m s. destruct m; try done.
  simpl. by destruct (hasKind _ _).
Qed.

Lemma extractStateModifications_visitor_push m s :
  extractStateModifications_visitor m s
  = match modificationOf m with Some x => s ++ [x] | None => s end.
Proof.
  unfold modificationOf. destruct m; try done.
  match goal with |- context [BinaryExpression _ ?l _ _] => destruct l end;
    try done.
  simpl. by destruct (hasKind _ SyntaxKind.ThisKeyword).
Qed.

Lemma extractStateModifications_spec n :
  extractStateModifications n = omap modificationOf (preorder n).
Proof. apply visit_push, extractStateModifications_visitor_push. Qed.

(** ** The Model Builder *)

Lemma processClass_properties mems : ∀ contract,
  foldl (λ c member, processClass_property member c) contract mems
  = CairoContract.mk (CairoContract.name contract)
      (CairoContract.storage contract
       ++ map storageOfProperty (List.filter isPropertyDeclaration mems))
      (CairoContract.functions contract).
Proof.
  induction mems as [|member mems IH]; intros [name storage functions].
  - simpl. by rewrite app_nil_r.
  - cbn [foldl]. rewrite IH.
    destruct member; simpl; try done. by rewrite <- app_assoc.
Qed.

Lemma processClass_methods mems : ∀ contract,
  foldl (λ c member, processClass_method member c) contract mems
  = CairoContract.mk (CairoContract.name contract)
      (CairoContract.storage contract)
      (CairoContract.functions contract
       ++ map functionOfMethod (List.filter isMethodDeclaration mems)).
Proof.
  induction mems as [|member mems IH]; intros [name storage functions].
  - simpl. by rewrite app_nil_r.
  - cbn [foldl]. rewrite IH.
    destruct member; simpl; try done. by rewrite <- app_assoc.
Qed.

Lemma processClass_spec c contract :
  processClass c contract
  = CairoContract.mk (CairoContract.name contract)
      (CairoContract.storage contract ++ classStorage c)
      (CairoContract.functions contract ++ classFunctions c).
Proof.
  unfold processClass. cbv zeta.
  by rewrite processClass_properties, processClass_methods.
Qed.

Lemma processNode_visitor_spec n contract :
  processNode_visitor n contract
  = if isClassDeclaration n then
      CairoContract.mk (classContractName n)
        (CairoContract.storage contract ++ classStorage n)
        (CairoContract.functions contract ++ classFunctions n)
    else contract.
Proof.
  unfold processNode_visitor. destruct (isClassDeclaration n); [|done].
  cbv zeta. by rewrite processClass_spec.
Qed.

Lemma last_cons_from_option {A B} (f : A → B) (x : A) (l : list A) (d : B) :
  from_option f d (last (x :: l)) = from_option f (f x) (last l).
Proof. destruct l as [|y l]; [done|]. rewrite last_cons_cons.
  by destruct (last (y :: l)) eqn:E; [|apply last_None in E]. Qed.

Lemma processNode_fold l : ∀ contract,
  foldl (λ c m, processNode_visitor m c) contract l
  = let classes := List.filter isClassDeclaration l in
    CairoContract.mk
      (from_option classContractName (CairoContract.name contract) (last classes))
      (CairoContract.storage contract ++ classes ≫= classStorage)
      (CairoContract.functions contract ++ classes ≫= classFunctions).
Proof.
  induction l as [|m l IH]; intros [name storage functions]; cbv zeta.
  - simpl. by rewrite !app_nil_r.
  - cbn [foldl List.filter]. rewrite IH, processNode_visitor_spec. cbv zeta.
    destruct (isClassDeclaration m); [|done]. cbn [CairoContract.name
      CairoContract.storage CairoContract.functions].
    by rewrite !bind_cons, !app_assoc, last_cons_from_option.
Qed.

(** The model after the traversal, for any tree and any starting model. *)
Lemma processNode_spec n contract :
  processNode n contract
  = let classes := classDeclarations n in
    CairoContract.mk
      (from_option classContractName (CairoContract.name contract) (last classes))
      (CairoContract.storage contract ++ classes ≫= classStorage)
      (CairoContract.functions contract ++ classes ≫= classFunctions).
Proof. unfold processNode. rewrite visit_preorder. apply processNode_fold. Qed.

Lemma map_bind {A B C} (f : B → C) (g : A → list B) (l : list A) :
  map f (l ≫= g) = l ≫= (λ x, map f (g x)).
Proof.
  induction l as [|x l IH]; [done|].
  by rewrite !bind_cons, List.map_app, IH.
Qed.

(** ** The Type Mapper *)

Lemma typeMap_lookup (k : string) :
  typeMap !! k =
    if decide ("number" = k) then Some "felt252"
    else if decide ("string" = k) then Some "felt252"
    else if decide ("boolean" = k) then Some "bool"
    else if decide ("bigint" = k) then Some "u256"
    else None.
Proof.
  unfold typeMap. cbn [list_to_map foldr fst snd uncurry].
  by rewrite !lookup_insert, lookup_empty.
Qed.

(** C5.  The Type Mapper is total and is an exact, case-sensitive lookup
    of the annotation's text in the fixed table: [number] and [string] give
    [felt252], [boolean] gives [bool], [bigint] gives [u256], every other
    text (a capitalized name, a parameterized type) gives the fallback
    [felt252]; a property without annotation gets the fallback too, and
    the emitted storage line carries exactly that type. *)
Theorem convertType_total_exact_lookup :
  (∀ typeNode,
     convertType typeNode =
       match typeMap !! getText typeNode with
       | Some target => target
       | None => "felt252"
       end)
  ∧ (∀ k v, typeMap !! k = Some v ↔
       (k, v) ∈ [("number", "felt252"); ("string", "felt252");
                 ("boolean", "bool"); ("bigint", "u256")])
  ∧ (∀ typeNode,
       convertType typeNode =
         if decide (getText typeNode = "boolean") then "bool"
         else if decide (getText typeNode = "bigint") then "u256"
         else "felt252")
  ∧ convertType (Token SyntaxKind.TypeReference "Boolean") = "felt252"
  ∧ convertType (OtherNode SyntaxKind.TypeReference "Array<number>"
                   [Identifier "Array" "Array"; Samples.numberType]) = "felt252"
  ∧ (∀ src mods name ty init contract,
       let type :=
         match ty with Some t => convertType t | None => "felt252" end in
       CairoContract.storage
         (processClass_property (PropertyDeclaration src mods name ty init) contract)
       = CairoContract.storage contract ++ [CairoStorage.mk (getText name) type]
       ∧ generateStorageVariables
           (processClass_property (PropertyDeclaration src mods name ty init)
              initial_contract)
         = "        " +:+ getText name +:+ ": " +:+ type).
Proof.
  assert (Hconv : ∀ typeNode,
    convertType typeNode =
      match typeMap !! getText typeNode with
      | Some target => target
      | None => "felt252"
      end).
  { intros typeNode. unfold convertType. cbv zeta.
    rewrite typeMap_lookup. by repeat case_decide. }
  split_and!; try done.
  - intros k v. rewrite typeMap_lookup, !elem_of_cons, elem_of_nil.
    repeat case_decide; subst;
      (split; [intros [= <-]; auto 10
              | intros Hin; repeat destruct Hin as [Hin|Hin]; by simplify_eq]).
  - intros typeNode. rewrite Hconv, typeMap_lookup.
    repeat case_decide; congruence.
Qed.

(** ** The Model Builder: claims *)

(** C4 (as stated, refuted).  With two class declarations in the tree the
    model is not the model of the first one: the contract is named after
    the second and holds the storage fields of both. *)
Lemma processNode_two_classes_not_first_only :
  processNode Samples.twoClassFile initial_contract
  = CairoContract.mk "B"
      [CairoStorage.mk "a" "felt252"; CairoStorage.mk "b" "bool"] []
  ∧ spec_firstClassModel Samples.twoClassFile
    = CairoContract.mk "A" [CairoStorage.mk "a" "felt252"] []
  ∧ processNode Samples.twoClassFile initial_contract
    ≠ spec_firstClassModel Samples.twoClassFile.
Proof. split_and!; [by vm_compute | by vm_compute |]. vm_compute. discriminate. Qed.

(** C4 (amended).  The Model Builder uses every class declaration of the
    tree, nested ones included, in the order the depth-first traversal
    meets them: the storage fields and the functions of the model are those
    of all the classes, one class after the other, and the contract name
    is that of the last class met (empty when there is none).  When the
    tree holds exactly one class declaration, that class alone is the
    source of the name, the storage fields and the functions. *)
Theorem processNode_uses_every_class sourceFile :
  let classes := classDeclarations sourceFile in
  processNode sourceFile initial_contract
  = CairoContract.mk
      (from_option classContractName "" (last classes))
      (classes ≫= classStorage)
      (classes ≫= classFunctions)
  ∧ (∀ c, classes = [c] →
       processNode sourceFile initial_contract
       = CairoContract.mk (classContractName c) (classStorage c) (classFunctions c)
       ∧ processNode sourceFile initial_contract = spec_firstClassModel sourceFile).
Proof.
  cbv zeta. rewrite processNode_spec. cbv zeta. split; [done|].
  intros c Hc. unfold spec_firstClassModel. rewrite Hc.
  cbn [last from_option]. by rewrite !bind_singleton.
Qed.

Lemma processNode_uses_every_class_witness :
  classDeclarations Samples.walletFile = [Samples.walletClass]
  ∧ processNode Samples.walletFile initial_contract
    = spec_firstClassModel Samples.walletFile.
Proof.
  assert (H : classDeclarations Samples.walletFile = [Samples.walletClass])
    by (vm_compute; reflexivity).
  split; [exact H|].
  exact (proj2 (proj2 (processNode_uses_every_class Samples.walletFile)
                  Samples.walletClass H)).
Defined.

Example processNode_nested_class :
  processNode Samples.nestedClassFile initial_contract
  = CairoContract.mk "Inner"
      [CairoStorage.mk "x" "felt252"; CairoStorage.mk "y" "bool"]
      [CairoFunction.mk "m" [] "felt252" external [] false].
Proof. by vm_compute. Qed.

(** Document order and sub-trees *)

Lemma sublist_bind_elem {A} (f : Node → list A) c cs :
  c ∈ cs → f c `sublist_of` cs ≫= f.
Proof.
  induction 1 as [c cs|c c' cs _ IH]; rewrite bind_cons.
  - by apply sublist_inserts_r.
  - by apply sublist_inserts_l.
Qed.

Lemma sublist_children_preorder cs : cs `sublist_of` cs ≫= preorder.
Proof.
  induction cs as [|c cs IH]; [done|].
  rewrite bind_cons, (preorder_unfold c). cbn [app].
  apply sublist_skip. by apply sublist_inserts_l.
Qed.

Lemma sublist_preorder_subtree n : ∀ m,
  m ∈ preorder n → preorder m `sublist_of` preorder n.
Proof.
  induction n as [n IH] using Node_children_ind. intros m Hm.
  rewrite (preorder_unfold n) in Hm.
  apply elem_of_cons in Hm as [->|Hm]; [done|].
  apply list_elem_of_bind in Hm as (c & Hm & Hc).
  rewrite Forall_forall in IH.
  rewrite (preorder_unfold n). apply sublist_cons.
  etrans; [by apply IH|]. by apply sublist_bind_elem.
Qed.

Lemma sublist_members_preorder sourceFile c :
  c ∈ preorder sourceFile →
  node_members c `sublist_of` preorder sourceFile.
Proof.
  intros Hc. etrans; [|by apply sublist_preorder_subtree].
  rewrite (preorder_unfold c). apply sublist_cons.
  etrans; [|apply sublist_children_preorder].
  destruct c; try apply sublist_nil_l. simpl.
  by do 4 apply sublist_inserts_l.
Qed.

Lemma sublist_filter_map {A} (f : Node → bool) (g : Node → A) l k :
  l `sublist_of` k →
  map g (List.filter f l) `sublist_of` map g (List.filter f k).
Proof.
  induction 1 as [|x l k _ IH|x l k _ IH]; simpl.
  - done.
  - destruct (f x); [by apply sublist_skip | done].
  - destruct (f x); [by apply sublist_cons | done].
Qed.

(** C6 (as stated, refuted).  In
    [class Outer { x; m() { class Inner { y; n() { } } } z; k() { } }] the
    source declares the fields in the order x, y, z and the methods in the
    order m, n, k; the model, and the text after it, have them in the
    order x, z, y and m, k, n. *)
Lemma emitted_order_nested_class_not_declaration_order :
  let contract := processNode NestedSamples.nestedOrderFile initial_contract in
  map CairoStorage.name (CairoContract.storage contract) = ["x"; "z"; "y"]
  ∧ map CairoFunction.name (CairoContract.functions contract) = ["m"; "k"; "n"]
  ∧ map (λ p, from_option getText "" (node_name p))
      (List.filter isPropertyDeclaration (preorder NestedSamples.nestedOrderFile))
    = ["x"; "y"; "z"]
  ∧ map (λ m, from_option getText "" (node_name m))
      (List.filter isMethodDeclaration (preorder NestedSamples.nestedOrderFile))
    = ["m"; "n"; "k"]
  ∧ generateStorageVariables contract
    = "        x: felt252," +:+ LF +:+ "        z: felt252," +:+ LF
      +:+ "        y: bool"
  ∧ ¬ spec_inDeclarationOrder NestedSamples.nestedOrderFile contract.
Proof.
  cbv zeta. split_and!; try by vm_compute.
  intros [Hs _]. vm_compute in Hs.
  repeat match type of Hs with
  | _ `sublist_of` [] => apply sublist_nil_r in Hs; discriminate Hs
  | _ `sublist_of` _ :: _ =>
      apply sublist_cons_r in Hs as [Hs|(? & ? & Hs)]; simplify_eq
  end.
Qed.

(** C6 (amended).  For every input, the storage fields and the functions
    appear in the emitted text class by class, in the order the traversal
    meets the class declarations (an enclosing class before the classes
    nested in it), and within each class in the declaration order of its
    property and method members: the text [convert] returns holds the
    interface lines, the storage lines and the implementations in that
    order.  For a program with one class declaration this is exactly the
    declaration order of the properties and methods in the source class
    body. *)
Theorem emitted_order_class_by_class sourceFile :
  let classes := classDeclarations sourceFile in
  let properties := classes ≫= declaredProperties in
  let methods := classes ≫= declaredMethods in
  let contract := processNode sourceFile initial_contract in
  let name := from_option classContractName "" (last classes) in
  CairoContract.storage contract = map storageOfProperty properties
  ∧ CairoContract.functions contract = map functionOfMethod methods
  ∧ convert sourceFile
    = join LF
        [ "#[starknet::interface]";
          "pub trait I" +:+ name +:+ "<TContractState> {";
          join LF
            (map (λ m, generateInterfaceFunction (functionOfMethod m)) methods);
          "}";
          "";
          "#[starknet::contract]";
          "mod " +:+ name +:+ " {";
          "    use core::starknet::storage::{StoragePointerReadAccess, StoragePointerWriteAccess};";
          "";
          "    #[storage]";
          "    struct Storage {";
          join ("," +:+ LF)
            (map (λ p, "        " +:+ from_option getText "" (node_name p)
                       +:+ ": " +:+ CairoStorage.type (storageOfProperty p))
               properties);
          "    }";
          "";
          "    #[abi(embed_v0)]";
          "    impl " +:+ name +:+ "Impl of super::I" +:+ name
            +:+ "<ContractState> {";
          join (LF +:+ LF)
            (map (λ m, generateImplementationFunction (functionOfMethod m))
               methods);
          "    }";
          "}" ]
  ∧ (∀ c, classes = [c] →
       properties = List.filter isPropertyDeclaration (node_members c)
       ∧ methods = List.filter isMethodDeclaration (node_members c)
       ∧ spec_inDeclarationOrder sourceFile contract).
Proof.
  cbv zeta. unfold convert. rewrite processNode_spec. cbv zeta.
  unfold generateCairoCode, generateStorageVariables,
    generateInterfaceFunctions, generateImplementationFunctions.
  unfold classStorage, classFunctions, initial_contract.
  cbn [CairoContract.name CairoContract.storage CairoContract.functions app].
  rewrite <- !map_bind, !List.map_map. split_and!; try done.
  intros c Hc. rewrite Hc, !bind_singleton. split_and!; try done.
  assert (c ∈ preorder sourceFile) as Hin.
  { apply list_elem_of_In.
    apply (proj1 (proj1 (filter_In isClassDeclaration c (preorder sourceFile))
             ltac:(unfold classDeclarations in Hc; rewrite Hc; by left))). }
  pose proof (sublist_members_preorder sourceFile c Hin) as Hsub.
  split; cbn [CairoContract.storage CairoContract.functions];
    rewrite List.map_map; by apply sublist_filter_map.
Qed.

Lemma emitted_order_class_by_class_witness :
  classDeclarations Samples.walletFile = [Samples.walletClass]
  ∧ spec_inDeclarationOrder Samples.walletFile
      (processNode Samples.walletFile initial_contract).
Proof.
  assert (H : classDeclarations Samples.walletFile = [Samples.walletClass])
    by (vm_compute; reflexivity).
  split; [exact H|].
  exact (proj2 (proj2 (proj2 (proj2 (proj2
           (emitted_order_class_by_class Samples.walletFile)))
           Samples.walletClass H))).
Defined.

(** C7.  A program without class declaration is converted without
    failure into the degenerate model: empty contract name, no storage
    field, no function; the emitted text is the empty skeleton. *)
Theorem no_class_degenerate_model sourceFile :
  classDeclarations sourceFile = [] →
  processNode sourceFile initial_contract = CairoContract.mk "" [] []
  ∧ convert sourceFile
    = join LF
        [ "#[starknet::interface]";
          "pub trait I<TContractState> {";
          "";
          "}";
          "";
          "#[starknet::contract]";
          "mod  {";
          "    use core::starknet::storage::{StoragePointerReadAccess, StoragePointerWriteAccess};";
          "";
          "    #[storage]";
          "    struct Storage {";
          "";
          "    }";
          "";
          "    #[abi(embed_v0)]";
          "    impl Impl of super::I<ContractState> {";
          "";
          "    }";
          "}" ].
Proof.
  intros Hnone. unfold convert. rewrite processNode_spec. cbv zeta.
  rewrite Hnone. done.
Qed.

Lemma no_class_degenerate_model_witness :
  classDeclarations Samples.noClassFile = []
  ∧ processNode Samples.noClassFile initial_contract = CairoContract.mk "" [] [].
Proof.
  assert (H : classDeclarations Samples.noClassFile = [])
    by (vm_compute; reflexivity).
  split; [exact H|].
  exact (proj1 (no_class_degenerate_model Samples.noClassFile H)).
Defined.

(** ** The Instruction Synthesizer *)

Lemma append_assoc (s1 s2 s3 : string) : (s1 +:+ s2) +:+ s3 = s1 +:+ s2 +:+ s3.
Proof.
  induction s1 as [|a s1 IH]; [done|].
  change (String a ((s1 +:+ s2) +:+ s3) = String a (s1 +:+ s2 +:+ s3)).
  by rewrite IH.
Qed.

Lemma analyzeFunctionBody_writes mods : ∀ body,
  foldl (λ body mod_,
    match Modification.type mod_ with
    | assignment =>
        body ++ ["self." +:+ Modification.variable mod_ +:+ ".write("
                 +:+ Modification.expression mod_ +:+ ");"]
    end) body mods
  = body ++ map (λ m, writeInstruction (Modification.variable m)
                        (Modification.expression m)) mods.
Proof.
  induction mods as [|[[] v e] mods IH]; intros body; simpl.
  - by rewrite app_nil_r.
  - rewrite IH. by rewrite <- app_assoc.
Qed.

Lemma analyzeFunctionBody_no_body m isView :
  node_body m = None → analyzeFunctionBody m isView = [].
Proof. intros Hb. unfold analyzeFunctionBody. by rewrite Hb. Qed.

Lemma analyzeFunctionBody_view m b :
  node_body m = Some b →
  analyzeFunctionBody m true
  = [readInstruction (js_template (spec_firstAccess (preorder b)))].
Proof.
  intros Hb. unfold analyzeFunctionBody. rewrite Hb. cbv zeta.
  by rewrite findStateVariableAccess_spec, new_Set_first.
Qed.

Lemma analyzeFunctionBody_mutating m b :
  node_body m = Some b →
  analyzeFunctionBody m false
  = map (λ m, writeInstruction (Modification.variable m)
                (Modification.expression m))
      (omap modificationOf (preorder b))
    ++ (if spec_hasReturn (preorder b)
        then [readInstruction (js_template (spec_firstAccess (preorder b)))]
        else []).
Proof.
  intros Hb. unfold analyzeFunctionBody. rewrite Hb. cbv zeta.
  rewrite analyzeFunctionBody_writes, findStateVariableAccess_spec,
    new_Set_first, extractStateModifications_spec, hasReturnStatement_spec.
  cbn [app]. destruct (spec_hasReturn _); [done|]. by rewrite app_nil_r.
Qed.

(** On the operators the specification recognizes, the entry pushed at a
    node is the specification's mutation. *)
Lemma modificationOf_recognized n :
  recognizedOperator n = true →
  modificationOf n
  = (λ p, Modification.mk assignment p.1 p.2) <$> spec_mutation n.
Proof.
  destruct n as [| | | | | | |src lhs op rhs| | | |]; try done.
  destruct lhs as [| | | | | |src' e name| | | | |]; try done.
  unfold modificationOf, recognizedOperator. simpl.
  destruct (hasKind e SyntaxKind.ThisKeyword); [|done].
  unfold readInstruction.
  destruct op as [| | | | | | | | | |k s|k s cs]; try done;
    destruct k; try done; intros _; simpl;
    by rewrite ?append_assoc.
Qed.

Lemma omap_modificationOf_recognized nodes :
  forallb recognizedOperator nodes = true →
  map (λ m, writeInstruction (Modification.variable m) (Modification.expression m))
    (omap modificationOf nodes)
  = spec_writes nodes.
Proof.
  unfold spec_writes.
  induction nodes as [|n nodes IH]; [done|]. cbn [forallb].
  intros [Hn Hr]%andb_true_iff. cbn [omap list_omap].
  rewrite (modificationOf_recognized n Hn).
  destruct (spec_mutation n) as [[field e]|]; simpl; rewrite IH; done.
Qed.

Lemma omap_nil_inv {A B} (f : A → option B) (l : list A) x :
  omap f l = [] → x ∈ l → f x = None.
Proof.
  intros Hnil Hx. destruct (f x) as [y|] eqn:Hfx; [|done].
  assert (y ∈ omap f l) as Hy by (apply list_elem_of_omap; eauto).
  rewrite Hnil in Hy. by apply elem_of_nil in Hy.
Qed.

(** A body without member access on the instance reference has no
    mutation either: a mutation's left operand is such an access. *)
Lemma no_access_no_modification b :
  omap thisAccess (preorder b) = [] → omap modificationOf (preorder b) = [].
Proof.
  intros Hnone. apply elem_of_nil_inv. intros mod_ Hmod.
  apply list_elem_of_omap in Hmod as (n & Hn & Hmod).
  destruct n as [| | | | | | |src lhs op rhs| | | |]; try done.
  destruct lhs as [| | | | | |src' e name| | | | |]; try done.
  assert (PropertyAccessExpression src' e name ∈ preorder b) as Hlhs.
  { eapply elem_of_preorder_trans; [exact Hn|].
    eapply elem_of_preorder_child; [|apply elem_of_preorder_root].
    simpl. apply list_elem_of_here. }
  pose proof (omap_nil_inv _ _ _ Hnone Hlhs) as Hacc.
  unfold modificationOf in Hmod. simpl in Hmod, Hacc.
  by destruct (hasKind e SyntaxKind.ThisKeyword).
Qed.

(** ** The Body Analyzer and the Instruction Synthesizer: claims *)

(** C1 (the code departs from the claim).  A multiply-assign and a
    comparison on an instance field are recorded as mutations, with the
    right operand's text as the expression, and a write instruction is
    emitted for each; the specification's reading has no write there. *)
Theorem unrecognized_operator_still_written :
  extractStateModifications Samples.scaleBody
  = [Modification.mk assignment "balance" "2"]
  ∧ analyzeFunctionBody Samples.scaleMethod false = ["self.balance.write(2);"]
  ∧ spec_writes (bodyNodes Samples.scaleMethod) = []
  ∧ extractStateModifications Samples.coversBody
    = [Modification.mk assignment "balance" "amount"]
  ∧ analyzeFunctionBody Samples.coversMethod false
    = ["self.balance.write(amount);"; "self.balance.read()"]
  ∧ spec_writes (bodyNodes Samples.coversMethod) = [].
Proof. split_and!; by vm_compute. Qed.

(** Whatever the operator, a binary expression on an instance field is
    recorded. *)
Lemma modificationOf_any_operator src src' e name op rhs :
  hasKind e SyntaxKind.ThisKeyword = true →
  ∃ expression,
    modificationOf (BinaryExpression src (PropertyAccessExpression src' e name) op rhs)
    = Some (Modification.mk assignment (getText name) expression).
Proof. intros He. unfold modificationOf. simpl. rewrite He. eauto. Qed.

(** C2 (as stated, refuted).  [answer() { return 42; }] is not a view and
    its body holds a return statement but no access to an instance field:
    the list is the single line [self.undefined.read()], which is not a
    read of a first accessed field. *)
Lemma mutating_return_without_access_not_spec :
  hasViewDecorator Samples.answerMethod = false
  ∧ analyzeFunctionBody Samples.answerMethod
      (hasViewDecorator Samples.answerMethod) = ["self.undefined.read()"]
  ∧ spec_hasReturn (bodyNodes Samples.answerMethod) = true
  ∧ spec_firstAccess (bodyNodes Samples.answerMethod) = None
  ∧ ¬ spec_mutatingInstructions (bodyNodes Samples.answerMethod)
        (analyzeFunctionBody Samples.answerMethod
           (hasViewDecorator Samples.answerMethod)).
Proof.
  split_and!; try by vm_compute.
  intros (trailing & _ & Htrail).
  assert (spec_hasReturn (bodyNodes Samples.answerMethod) = true) as Hret
    by (by vm_compute).
  rewrite Hret in Htrail. destruct Htrail as (field & Hfield & _).
  vm_compute in Hfield. discriminate.
Qed.

(** C2 (amended).  For every method not annotated as view in whose body
    every binary expression on an instance field uses [=], [+=] or [-=],
    the instruction list is one write per such expression, in document
    order, followed, if and only if the body holds a return statement, by
    one read of the first distinct accessed field, or of the literal name
    [undefined] when the body accesses no instance field.  A method
    without body has neither writes nor read. *)
Theorem mutating_instructions m :
  hasViewDecorator m = false →
  forallb recognizedOperator (bodyNodes m) = true →
  analyzeFunctionBody m (hasViewDecorator m)
  = spec_writes (bodyNodes m)
    ++ (if spec_hasReturn (bodyNodes m)
        then [readInstruction (js_template (spec_firstAccess (bodyNodes m)))]
        else []).
Proof.
  intros -> Hops. unfold bodyNodes in *.
  destruct (node_body m) as [b|] eqn:Hb.
  - rewrite (analyzeFunctionBody_mutating m b Hb).
    by rewrite omap_modificationOf_recognized.
  - by rewrite analyzeFunctionBody_no_body.
Qed.

Lemma mutating_instructions_witness :
  analyzeFunctionBody Samples.depositMethod
    (hasViewDecorator Samples.depositMethod)
  = spec_writes (bodyNodes Samples.depositMethod)
    ++ (if spec_hasReturn (bodyNodes Samples.depositMethod)
        then [readInstruction
                (js_template (spec_firstAccess (bodyNodes Samples.depositMethod)))]
        else []).
Proof.
  apply (mutating_instructions Samples.depositMethod);
    vm_compute; reflexivity.
Defined.

(** C3 (as stated, refuted).  [@view peek(): number;] is a view method
    without body: its instruction list is empty, not one read. *)
Lemma view_without_body_not_spec :
  hasViewDecorator Samples.peekMethod = true
  ∧ analyzeFunctionBody Samples.peekMethod
      (hasViewDecorator Samples.peekMethod) = []
  ∧ length (analyzeFunctionBody Samples.peekMethod
              (hasViewDecorator Samples.peekMethod)) ≠ 1%nat
  ∧ ¬ spec_viewInstructions (bodyNodes Samples.peekMethod)
        (analyzeFunctionBody Samples.peekMethod
           (hasViewDecorator Samples.peekMethod)).
Proof.
  split_and!; try by vm_compute.
  intros (field & _ & Hlist). vm_compute in Hlist. discriminate.
Qed.

(** C3 (amended).  For every method annotated as view that has a body,
    the instruction list has exactly one element: a read of the first
    name, in first-occurrence order, among the distinct member accesses
    on the instance reference found anywhere in the body, or of the
    literal name [undefined] when the body holds no such access. *)
Theorem view_instructions m b :
  hasViewDecorator m = true →
  node_body m = Some b →
  analyzeFunctionBody m (hasViewDecorator m)
  = [readInstruction (js_template (spec_firstAccess (preorder b)))]
  ∧ (∀ field, spec_firstAccess (preorder b) = Some field →
       spec_viewInstructions (preorder b)
         (analyzeFunctionBody m (hasViewDecorator m)))
  ∧ findStateVariableAccess b !! 0%nat = spec_firstAccess (preorder b)
  ∧ NoDup (findStateVariableAccess b)
  ∧ (∀ field, field ∈ findStateVariableAccess b
              ↔ field ∈ omap thisAccess (preorder b)).
Proof.
  intros -> Hb. rewrite (analyzeFunctionBody_view m b Hb).
  rewrite findStateVariableAccess_spec.
  split_and!.
  - done.
  - intros field Hfield. exists field. by rewrite Hfield.
  - apply new_Set_first.
  - apply new_Set_NoDup.
  - intros field. apply new_Set_elem_of.
Qed.

Lemma view_instructions_witness :
  analyzeFunctionBody Samples.getBalanceMethod
    (hasViewDecorator Samples.getBalanceMethod)
  = ["self.balance.read()"].
Proof.
  exact (proj1 (view_instructions Samples.getBalanceMethod
                  Samples.getBalanceBody eq_refl eq_refl)).
Defined.

Lemma write_of_modification m b n mod_ :
  node_body m = Some b →
  n ∈ preorder b →
  modificationOf n = Some mod_ →
  writeInstruction (Modification.variable mod_) (Modification.expression mod_)
  ∈ analyzeFunctionBody m false.
Proof.
  intros Hb Hn Hmod. rewrite (analyzeFunctionBody_mutating m b Hb).
  apply elem_of_app. left. apply list_elem_of_In.
  apply (in_map (λ x, writeInstruction (Modification.variable x)
                        (Modification.expression x))).
  apply list_elem_of_In, list_elem_of_omap. eauto.
Qed.

(** C8.  An add-assign (a subtract-assign) on an instance field is
    recorded with the expression "read of the field, [+] (respectively
    [-]), the text of the right operand", and the method's list holds
    the write of that expression to the field.  For
    [this.balance += amount; return this.balance;] the list is exactly the
    write of [self.balance.read() + amount] to [balance], then the read
    of [balance]. *)
Theorem compound_assignment_write :
  (∀ m b src src' e name op rhs,
     let n := BinaryExpression src (PropertyAccessExpression src' e name) op rhs in
     let field := getText name in
     node_body m = Some b →
     n ∈ preorder b →
     hasKind e SyntaxKind.ThisKeyword = true →
     (hasKind op SyntaxKind.PlusEqualsToken = true →
        modificationOf n
        = Some (Modification.mk assignment field
                  (readInstruction field +:+ " + " +:+ getText rhs))
        ∧ writeInstruction field (readInstruction field +:+ " + " +:+ getText rhs)
          ∈ analyzeFunctionBody m false)
     ∧ (hasKind op SyntaxKind.MinusEqualsToken = true →
          modificationOf n
          = Some (Modification.mk assignment field
                    (readInstruction field +:+ " - " +:+ getText rhs))
          ∧ writeInstruction field (readInstruction field +:+ " - " +:+ getText rhs)
            ∈ analyzeFunctionBody m false))
  ∧ analyzeFunctionBody Samples.depositMethod
      (hasViewDecorator Samples.depositMethod)
    = [ writeInstruction "balance" (readInstruction "balance" +:+ " + " +:+ "amount");
        readInstruction "balance" ]
  ∧ analyzeFunctionBody Samples.depositMethod
      (hasViewDecorator Samples.depositMethod)
    = [ "self.balance.write(self.balance.read() + amount);";
        "self.balance.read()" ].
Proof.
  split; [|split; by vm_compute].
  intros m b src src' e name op rhs n field Hb Hn He.
  assert (∀ mod_,
    modificationOf n = Some mod_ →
    modificationOf n = Some mod_
    ∧ writeInstruction (Modification.variable mod_) (Modification.expression mod_)
      ∈ analyzeFunctionBody m false) as Hstep.
  { intros mod_ Hmod. split; [done|]. by eapply write_of_modification. }
  split; intros Hop.
  - apply (Hstep (Modification.mk assignment field
                    (readInstruction field +:+ " + " +:+ getText rhs))).
    unfold modificationOf, n, field. simpl.
    rewrite He, Hop. unfold readInstruction. by rewrite !append_assoc.
  - apply (Hstep (Modification.mk assignment field
                    (readInstruction field +:+ " - " +:+ getText rhs))).
    unfold modificationOf, n, field. simpl.
    rewrite He, Hop. unfold readInstruction.
    destruct (hasKind op SyntaxKind.PlusEqualsToken) eqn:Hplus.
    + destruct op; try done; simpl in Hop, Hplus;
        apply bool_decide_eq_true in Hop, Hplus; congruence.
    + by rewrite !append_assoc.
Qed.

Lemma compound_assignment_write_witness :
  "self.balance.write(self.balance.read() - amount);"
  ∈ analyzeFunctionBody Samples.withdrawMethod false.
Proof.
  refine (proj2 (proj2 (proj1 compound_assignment_write
    Samples.withdrawMethod Samples.withdrawBody
    "this.balance -= amount" "this.balance" Samples.this_
    (Samples.ident "balance") (Token SyntaxKind.MinusEqualsToken "-=")
    (Samples.ident "amount") eq_refl _ eq_refl) eq_refl)).
  vm_compute. apply list_elem_of_further, list_elem_of_further, list_elem_of_here.
Defined.

(** C9.  When the body holds no member access on the instance reference
    and index zero of the state-access list is consulted (a view method,
    or a method whose body holds a return statement), nothing fails: the
    instruction list is the single line [self.undefined.read()], and the
    emitted function body is exactly that line, indented, between the
    header and the closing brace. *)
Theorem empty_access_reads_undefined m b isView :
  node_body m = Some b →
  omap thisAccess (preorder b) = [] →
  isView = true ∨ hasReturnStatement b = true →
  findStateVariableAccess b = []
  ∧ analyzeFunctionBody m isView = ["self.undefined.read()"]
  ∧ ∀ func, CairoFunction.body func = analyzeFunctionBody m isView →
      ∃ header,
        generateImplementationFunction func
        = join LF [header; "            self.undefined.read()"; "        }"].
Proof.
  intros Hb Hnone Hzero.
  assert (analyzeFunctionBody m isView = ["self.undefined.read()"]) as Hlist.
  { destruct isView.
    - rewrite (analyzeFunctionBody_view m b Hb).
      unfold spec_firstAccess. by rewrite Hnone.
    - destruct Hzero as [?|Hret]; [done|].
      rewrite (analyzeFunctionBody_mutating m b Hb).
      rewrite no_access_no_modification by done.
      rewrite <- hasReturnStatement_spec, Hret.
      unfold spec_firstAccess. by rewrite Hnone. }
  split_and!; [|done|].
  - by rewrite findStateVariableAccess_spec, Hnone.
  - intros func Hfunc. unfold generateImplementationFunction. cbv zeta.
    rewrite Hfunc, Hlist. eexists. reflexivity.
Qed.

Lemma empty_access_reads_undefined_witness :
  analyzeFunctionBody Samples.answerMethod false = ["self.undefined.read()"].
Proof.
  refine (proj1 (proj2 (empty_access_reads_undefined Samples.answerMethod
    Samples.answerBody false eq_refl _ (or_intror _)))).
  - vm_compute. reflexivity.
  - vm_compute. reflexivity.
Defined.

(** C10.  A method declaration without body gets the empty instruction
    list, annotated as view or not, and the function model recorded for it
    has the empty list as its body. *)
Theorem no_body_no_instructions src mods name tps params ty contract :
  let m := MethodDeclaration src mods name tps params ty None in
  analyzeFunctionBody m true = []
  ∧ analyzeFunctionBody m false = []
  ∧ analyzeFunctionBody m (hasViewDecorator m) = []
  ∧ CairoContract.functions (processMember m contract)
    = CairoContract.functions contract
      ++ [CairoFunction.mk (getText name) (processParameters params)
            (match ty with Some t => convertType t | None => "felt252" end)
            external [] (hasViewDecorator m)].
Proof. by split_and!. Qed.

(** * Further properties of the converter *)

(** ** Return presence *)

(** X1.  [hasReturnStatement] answers true exactly when some node of the
    tree, at any depth, is a return statement: stopping the descent once a
    return is found loses nothing. *)
Theorem hasReturnStatement_iff n :
  hasReturnStatement n = true
  ↔ ∃ m, m ∈ preorder n ∧ isReturnStatement m = true.
Proof.
  rewrite hasReturnStatement_spec. unfold spec_hasReturn.
  rewrite existsb_exists. by setoid_rewrite list_elem_of_In.
Qed.

(** ** State accesses *)

Lemma foldl_Set_add_firstOccurrences l : ∀ s,
  foldl Set_add s l = s ++ filter (λ y, y ∉ s) (firstOccurrences l).
Proof.
  induction l as [|x l IH]; intros s.
  - simpl. by rewrite app_nil_r.
  - cbn [foldl firstOccurrences]. rewrite IH. unfold Set_add.
    case_decide as Hx.
    + rewrite filter_cons_False by (by intros []).
      f_equal. rewrite list_filter_filter. apply list_filter_iff.
      intros y. split; [intros Hy; split; [done|congruence] | by intros []].
    + rewrite filter_cons_True by done. rewrite <- app_assoc. cbn [app].
      do 2 f_equal. rewrite list_filter_filter. apply list_filter_iff.
      intros y. rewrite elem_of_app, list_elem_of_singleton. tauto.
Qed.

(** X2.  The state-access list is the list of the member names accessed
    on the instance reference, in document order, each kept at its first
    occurrence only; it has no duplicates. *)
Theorem findStateVariableAccess_first_occurrences n :
  findStateVariableAccess n = firstOccurrences (omap thisAccess (preorder n))
  ∧ NoDup (findStateVariableAccess n).
Proof.
  rewrite findStateVariableAccess_spec. split; [|apply new_Set_NoDup].
  unfold new_Set. rewrite foldl_Set_add_firstOccurrences. cbn [app].
  induction (firstOccurrences _) as [|y r IHr]; [done|].
  rewrite filter_cons_True by apply not_elem_of_nil. by rewrite IHr.
Qed.

(** ** Mutations *)

Lemma modificationOf_thisBinary n :
  modificationOf n =
    match thisBinary n with
    | Some (field, op, rhs) =>
        Some (Modification.mk assignment field
                (if hasKind op SyntaxKind.PlusEqualsToken
                 then "self." +:+ field +:+ ".read() + " +:+ getText rhs
                 else if hasKind op SyntaxKind.MinusEqualsToken
                 then "self." +:+ field +:+ ".read() - " +:+ getText rhs
                 else getText rhs))
    | None => None
    end.
Proof.
  destruct n as [| | | | | | |src lhs op rhs| | | |]; try done.
  destruct lhs as [| | | | | |src' e name| | | | |]; try done.
  unfold modificationOf. simpl.
  by destruct (hasKind e SyntaxKind.ThisKeyword).
Qed.

(** X3.  The mutation list holds one entry for every binary expression
    of the tree whose left operand is a member access on the instance
    reference, in document order and with repetitions, whatever the
    operator: [+=] and [-=] give the read-then-combine expression and every
    other operator, assignment or not, gives the text of the right
    operand. *)
Theorem extractStateModifications_every_operator n :
  extractStateModifications n
  = (λ '(field, op, rhs),
       Modification.mk assignment field
         (if hasKind op SyntaxKind.PlusEqualsToken
          then "self." +:+ field +:+ ".read() + " +:+ getText rhs
          else if hasKind op SyntaxKind.MinusEqualsToken
          then "self." +:+ field +:+ ".read() - " +:+ getText rhs
          else getText rhs))
    <$> omap thisBinary (preorder n).
Proof.
  rewrite extractStateModifications_spec.
  induction (preorder n) as [|m l IH]; [done|].
  cbn [omap list_omap]. rewrite modificationOf_thisBinary, IH.
  by destruct (thisBinary m) as [[[field op] rhs]|].
Qed.

Lemma thisBinary_access n b field op rhs :
  n ∈ preorder b → thisBinary n = Some (field, op, rhs) →
  field ∈ omap thisAccess (preorder b).
Proof.
  intros Hn Hbin.
  destruct n as [| | | | | | |src lhs op' rhs'| | | |]; try done.
  simpl in Hbin. destruct (thisAccess lhs) as [field'|] eqn:Hacc; [|done].
  simplify_eq. apply list_elem_of_omap. exists lhs. split; [|done].
  eapply elem_of_preorder_trans; [exact Hn|].
  eapply elem_of_preorder_child; [|apply elem_of_preorder_root].
  simpl. apply list_elem_of_here.
Qed.

(** X4.  Every field a mutation writes is in the state-access list of the
    same tree; so when there is at least one mutation the list is not
    empty and its index zero is defined. *)
Theorem written_fields_are_accessed n mod_ :
  mod_ ∈ extractStateModifications n →
  Modification.variable mod_ ∈ findStateVariableAccess n
  ∧ is_Some (findStateVariableAccess n !! 0%nat).
Proof.
  rewrite extractStateModifications_spec, findStateVariableAccess_spec.
  intros (m & Hm & Hmod)%list_elem_of_omap.
  rewrite modificationOf_thisBinary in Hmod.
  destruct (thisBinary m) as [[[field op] rhs]|] eqn:Hbin; [|done].
  simplify_eq. cbn [Modification.variable].
  pose proof (thisBinary_access _ _ _ _ _ Hm Hbin) as Hacc.
  split; [by apply new_Set_elem_of|].
  rewrite new_Set_first.
  destruct (omap thisAccess (preorder n)); [by apply elem_of_nil in Hacc|].
  by eexists.
Qed.

Lemma written_fields_are_accessed_witness :
  "balance" ∈ findStateVariableAccess Samples.depositBody.
Proof.
  refine (proj1 (written_fields_are_accessed Samples.depositBody
    (Modification.mk assignment "balance" "self.balance.read() + amount") _)).
  vm_compute. apply list_elem_of_here.
Defined.

(** X5.  [checkIfModifiesState] answers true exactly when
    [extractStateModifications] finds at least one mutation in the same
    tree. *)
Theorem checkIfModifiesState_iff n :
  checkIfModifiesState n = true ↔ extractStateModifications n ≠ [].
Proof.
  unfold checkIfModifiesState. rewrite visit_preorder, extractStateModifications_spec.
  assert (Hfold : ∀ l h,
    foldl (λ s m, checkIfModifiesState_visitor m s) h l
    = h || bool_decide (omap modificationOf l ≠ [])).
  { induction l as [|m l IH]; intros h.
    - simpl. by rewrite orb_false_r.
    - cbn [foldl omap list_omap]. rewrite IH, modificationOf_thisBinary.
      destruct m as [| | | | | | |src lhs op rhs| | | |]; try done.
      destruct lhs as [| | | | | |src' e name| | | | |]; try done.
      simpl. destruct (hasKind e SyntaxKind.ThisKeyword); [|done].
      by rewrite orb_true_r. }
  rewrite Hfold. cbn [orb]. apply bool_decide_eq_true.
Qed.

(** ** Decorators *)

Lemma existsb_getDecorators (f : Node → bool) m :
  match getDecorators m with [] => false | ds => existsb f ds end = true
  ↔ ∃ d, d ∈ node_modifiers m ∧ isDecorator d = true ∧ f d = true.
Proof.
  assert (match getDecorators m with [] => false | ds => existsb f ds end
          = existsb f (getDecorators m)) as -> by (by destruct (getDecorators m)).
  rewrite existsb_exists. unfold getDecorators.
  setoid_rewrite filter_In. setoid_rewrite list_elem_of_In.
  split; [intros (d & [? ?] & ?) | intros (d & ? & ? & ?)]; eauto.
Qed.

(** X6.  A method is a view (respectively external) exactly when one of
    its modifiers is a decorator whose expression is the bare identifier
    [view] (respectively [external]); a decorator call such as [@view()],
    another decorator or no decorator at all gives false. *)
Theorem decorator_predicates m :
  (hasViewDecorator m = true
   ↔ ∃ src src', Decorator src (Identifier src' "view") ∈ node_modifiers m)
  ∧ (hasExternalDecorator m = true
     ↔ ∃ src src', Decorator src (Identifier src' "external") ∈ node_modifiers m).
Proof.
  split; unfold hasViewDecorator, hasExternalDecorator;
    rewrite existsb_getDecorators.
  all: split;
    [ intros (d & Hd & _ & Hf);
      destruct d as [| | | | |src expr| | | | | |]; try done;
      destruct expr as [| | | | | | | | |src' t| |]; try done;
      apply bool_decide_eq_true in Hf; simpl in Hf; subst; eauto
    | intros (src & src' & Hd); eexists; split; [exact Hd|done] ].
Qed.

Example hasViewDecorator_call_is_not_view :
  hasViewDecorator MoreSamples.totalMethod = false
  ∧ hasViewDecorator Samples.getBalanceMethod = true
  ∧ hasExternalDecorator Samples.getBalanceMethod = false.
Proof. by vm_compute. Qed.

(** ** Instruction lists *)

(** X7.  Whatever the body, a view method's list holds at most one
    instruction and only reads, even when the body assigns instance
    fields; the list of a method that is not a view is one write per
    binary expression on an instance field (whatever the operator),
    followed by a single read exactly when the body holds a return
    statement, and by nothing otherwise. *)
Theorem instruction_list_shape m :
  ((length (analyzeFunctionBody m true) ≤ 1)%nat
   ∧ Forall (λ i, ∃ field, i = readInstruction field)
       (analyzeFunctionBody m true))
  ∧ ∃ writes,
      analyzeFunctionBody m false
      = writes
        ++ (if spec_hasReturn (bodyNodes m)
            then [readInstruction (js_template (spec_firstAccess (bodyNodes m)))]
            else [])
      ∧ length writes = length (omap thisBinary (bodyNodes m))
      ∧ Forall (λ i, ∃ field e, i = writeInstruction field e) writes.
Proof.
  unfold bodyNodes. destruct (node_body m) as [b|] eqn:Hb.
  - rewrite (analyzeFunctionBody_view m b Hb),
      (analyzeFunctionBody_mutating m b Hb).
    split; [split; [done|]; apply Forall_singleton; eauto|].
    eexists. split; [done|]. split.
    + rewrite length_map. clear Hb.
      induction (preorder b) as [|n l IH]; [done|]. cbn [omap list_omap].
      rewrite modificationOf_thisBinary.
      destruct (thisBinary n) as [[[field op] rhs]|]; simpl; by rewrite ?IH.
    + apply Forall_forall. intros i (mod_ & <- & _)%list_elem_of_In%in_map_iff.
      eauto.
  - rewrite !analyzeFunctionBody_no_body by done.
    split; [split; [simpl; lia | apply Forall_nil_2]|].
    exists []. split_and!; [done | done | apply Forall_nil_2].
Qed.

Example view_method_never_writes :
  analyzeFunctionBody Samples.depositMethod true = ["self.balance.read()"]
  ∧ analyzeFunctionBody MoreSamples.moveMethod false
    = [ "self.a.write(this.b);"; "self.b.write(this.a);"; "self.a.read()" ].
Proof. by vm_compute. Qed.

(** ** The Code Emitter *)

Lemma append_nil_r (s : string) : s +:+ "" = s.
Proof.
  induction s as [|a s IH]; [done|].
  change (String a (s +:+ "") = String a s). by rewrite IH.
Qed.

Lemma append_eq_nil (s t : string) : s +:+ t = "" → s = "".
Proof.
  destruct s as [|a s]; [done|].
  change (String a (s +:+ t) = "" → String a s = ""). done.
Qed.

Lemma join_snoc sep l x :
  join sep (l ++ [x])
  = match l with [] => x | _ => join sep l +:+ sep +:+ x end.
Proof.
  induction l as [|y l IH]; [done|].
  cbn [app]. destruct l as [|z l]; [done|].
  change (y +:+ sep +:+ join sep ((z :: l) ++ [x])
          = (y +:+ sep +:+ join sep (z :: l)) +:+ sep +:+ x).
  by rewrite IH, !append_assoc.
Qed.

Lemma renderParams_nil_iff parameters :
  renderParams parameters = "" ↔ parameters = [].
Proof.
  split; [|by intros ->].
  destruct parameters as [|[n t] ps]; [done|]. unfold renderParams.
  destruct ps as [|p ps]; cbn [map join CairoParameter.name CairoParameter.type];
    intros H.
  - destruct n; [|by apply append_eq_nil in H]. discriminate H.
  - destruct n; [|by apply append_eq_nil in H]. discriminate H.
Qed.

Lemma allParams_format selfParam parameters :
  selfParam ≠ "" →
  join ", " (filter_Boolean [selfParam; renderParams parameters])
  = selfParam
    +:+ match parameters with
        | [] => ""
        | _ => ", " +:+ renderParams parameters
        end.
Proof.
  intros Hself. unfold filter_Boolean. cbn [List.filter].
  rewrite (bool_decide_eq_false_2 _ Hself). cbn [negb].
  destruct parameters as [|p ps].
  - simpl. by rewrite append_nil_r.
  - assert (renderParams (p :: ps) ≠ "") as Hps
      by (by intros ?%renderParams_nil_iff).
    by rewrite (bool_decide_eq_false_2 _ Hps).
Qed.

(** X8.  A signature lists the state reference first ([self: @...] for a
    view, [ref self: ...] otherwise), then the parameters as [name: type]
    separated by a comma and a space; a function without parameters has
    the state reference alone, with no dangling comma.  The
    implementation is the header, the instructions indented one per line,
    and the closing brace. *)
Theorem signature_format func :
  let parameters := CairoFunction.parameters func in
  let rest :=
    match parameters with
    | [] => ""
    | _ => ", " +:+ renderParams parameters
    end in
  generateInterfaceFunction func
  = "    fn " +:+ CairoFunction.name func +:+ "("
    +:+ ((if CairoFunction.isView func
          then "self: @TContractState" else "ref self: TContractState")
         +:+ rest)
    +:+ ") -> " +:+ CairoFunction.returnType func +:+ ";"
  ∧ generateImplementationFunction func
    = join LF
        (["        fn " +:+ CairoFunction.name func +:+ "("
          +:+ ((if CairoFunction.isView func
                then "self: @ContractState" else "ref self: ContractState")
               +:+ rest)
          +:+ ") -> " +:+ CairoFunction.returnType func +:+ " {"]
         ++ map (λ line, "            " +:+ line) (CairoFunction.body func)
         ++ ["        }"]).
Proof.
  cbv zeta. unfold generateInterfaceFunction, generateImplementationFunction.
  cbv zeta. by destruct (CairoFunction.isView func);
    rewrite !allParams_format by done.
Qed.

(** X9.  The storage block separates the fields by a comma and a line
    feed and ends without comma: one more field at the end adds the
    separator and its line to the block, and the first field adds its
    line alone. *)
Theorem storage_block_append name fields functions field :
  generateStorageVariables (CairoContract.mk name (fields ++ [field]) functions)
  = let line := "        " +:+ CairoStorage.name field +:+ ": "
                +:+ CairoStorage.type field in
    match fields with
    | [] => line
    | _ =>
        generateStorageVariables (CairoContract.mk name fields functions)
        +:+ ("," +:+ LF) +:+ line
    end.
Proof.
  unfold generateStorageVariables. cbn [CairoContract.storage].
  rewrite List.map_app. cbn [map]. rewrite join_snoc.
  by destruct fields.
Qed.

(** ** The model across a run *)

(** X10.  The traversal only ever appends to the model: the storage
    fields and the functions it starts from stay, in place, at the front
    of the result, and a tree without class declaration leaves the model
    as it is. *)
Theorem processNode_extends n contract :
  CairoContract.storage contract
    `prefix_of` CairoContract.storage (processNode n contract)
  ∧ CairoContract.functions contract
      `prefix_of` CairoContract.functions (processNode n contract)
  ∧ (classDeclarations n = [] → processNode n contract = contract).
Proof.
  rewrite processNode_spec. cbv zeta.
  split_and!; [by eexists | by eexists |].
  intros ->. destruct contract. simpl. by rewrite !app_nil_r.
Qed.

Lemma processNode_extends_witness :
  processNode Samples.noClassFile
    (processNode Samples.walletFile initial_contract)
  = processNode Samples.walletFile initial_contract.
Proof.
  refine (proj2 (proj2 (processNode_extends Samples.noClassFile
    (processNode Samples.walletFile initial_contract))) _).
  vm_compute. reflexivity.
Defined.

(** X11.  [convert()] is not idempotent on a converter object: the first
    call gives the text of the model built from the tree, and a second
    call on the same object traverses the tree again over the model the
    first call left, so that every storage field and every function
    appears twice. *)
Theorem convert_twice_duplicates sourceFile :
  let first := convert_method (new_Converter sourceFile) in
  let second := convert_method first.2 in
  let model := Converter.contract first.2 in
  first.1 = convert sourceFile
  ∧ model = processNode sourceFile initial_contract
  ∧ Converter.contract second.2
    = CairoContract.mk (CairoContract.name model)
        (CairoContract.storage model ++ CairoContract.storage model)
        (CairoContract.functions model ++ CairoContract.functions model)
  ∧ second.1 = generateCairoCode (Converter.contract second.2).
Proof.
  cbv zeta. unfold convert_method, new_Converter, convert. cbn [fst snd
    Converter.sourceFile Converter.contract].
  split_and!; try done.
  rewrite !processNode_spec. cbv zeta. cbn [CairoContract.name
    CairoContract.storage CairoContract.functions initial_contract app].
  f_equal. by destruct (last (classDeclarations sourceFile)).
Qed.

(** X12.  The contract is named after the last class declaration the
    traversal meets: by the text of its name, or [Contract] when the
    class is anonymous. *)
Theorem contract_name_of_last_class sourceFile classes c :
  classDeclarations sourceFile = classes ++ [c] →
  CairoContract.name (processNode sourceFile initial_contract)
  = match node_name c with
    | Some identifier =>
        if decide (node_text identifier = "") then "Contract"
        else node_text identifier
    | None => "Contract"
    end.
Proof.
  intros Hc. rewrite processNode_spec. cbv zeta. rewrite Hc, last_snoc.
  cbn [CairoContract.name from_option]. unfold classContractName.
  by destruct (node_name c).
Qed.

Lemma contract_name_of_last_class_witness :
  CairoContract.name (processNode MoreSamples.anonymousFile initial_contract)
  = "Contract".
Proof.
  refine (contract_name_of_last_class MoreSamples.anonymousFile []
            MoreSamples.anonymousClass _).
  vm_compute. reflexivity.
Defined.

Lemma convertType_range typeNode : convertType typeNode ∈ targetTypes.
Proof.
  unfold convertType, targetTypes. cbv zeta. rewrite typeMap_lookup.
  repeat case_decide; simpl; rewrite !elem_of_cons; auto.
Qed.

Lemma annotation_range (ty : option Node) :
  match ty with Some t => convertType t | None => "felt252" end ∈ targetTypes.
Proof.
  destruct ty; [apply convertType_range|]. apply list_elem_of_here.
Qed.

(** X13.  Every type the model holds (of a storage field, of a
    parameter, of a return value) is one of [felt252], [bool] and [u256],
    and every function is recorded with the external visibility. *)
Theorem model_types_and_visibility sourceFile :
  let contract := processNode sourceFile initial_contract in
  Forall (λ s, CairoStorage.type s ∈ targetTypes)
    (CairoContract.storage contract)
  ∧ Forall (λ f,
      CairoFunction.returnType f ∈ targetTypes
      ∧ Forall (λ p, CairoParameter.type p ∈ targetTypes)
          (CairoFunction.parameters f)
      ∧ CairoFunction.visibility f = external)
      (CairoContract.functions contract).
Proof.
  cbv zeta. rewrite processNode_spec. cbv zeta.
  cbn [CairoContract.storage CairoContract.functions initial_contract app].
  split; apply Forall_forall; intros x (c & Hx & _)%list_elem_of_bind.
  - apply list_elem_of_In, in_map_iff in Hx as (member & <- & _).
    apply annotation_range.
  - apply list_elem_of_In, in_map_iff in Hx as (member & <- & _).
    cbn [functionOfMethod CairoFunction.returnType CairoFunction.parameters
      CairoFunction.visibility].
    split_and!; [apply annotation_range | | done].
    apply Forall_forall. intros p (param & <- & _)%list_elem_of_In%in_map_iff.
    apply annotation_range.
Qed.

(** X14.  When the body holds a return statement, the list of a method
    that is not a view ends with the very instruction the same method
    would get as a view: both read index zero of the state-access list. *)
Theorem trailing_read_is_view_read m b :
  node_body m = Some b →
  hasReturnStatement b = true →
  ∃ writes,
    analyzeFunctionBody m false = writes ++ analyzeFunctionBody m true
    ∧ length writes = length (extractStateModifications b).
Proof.
  intros Hb Hret.
  rewrite (analyzeFunctionBody_view m b Hb),
    (analyzeFunctionBody_mutating m b Hb).
  rewrite <- hasReturnStatement_spec, Hret, extractStateModifications_spec.
  eexists. split; [done|]. by rewrite length_map.
Qed.

Lemma trailing_read_is_view_read_witness :
  ∃ writes,
    analyzeFunctionBody Samples.depositMethod false
    = writes ++ analyzeFunctionBody Samples.depositMethod true
    ∧ length writes = length (extractStateModifications Samples.depositBody).
Proof.
  refine (trailing_read_is_view_read Samples.depositMethod
            Samples.depositBody eq_refl _).
  vm_compute. reflexivity.
Defined.
